(** * IP filter file parsing (filterparserthread.cpp)

    A shallow embedding of [src/base/bittorrent/private/filterparserthread.cpp]:
    the address helper [parseIPAddress], the three format parsers
    ([parseDATFilterFile], [parseP2PFilterFile], [parseP2BFilterFile]), the
    stream helper [getlineInStream] and the thread body [run], followed by the
    properties of the specification that concern them.

    Conventions.
    - A [QByteArray], a [QString] and the content of a [QFile] are all
      [list byte]; text is taken as Latin-1, one byte per character.
    - The library calls are given by their documented behaviour:
      [QByteArray::toInt], [trimmed], [split], [join] and [endsWith] of Qt,
      [address::from_string] of Boost.Asio (POSIX [inet_pton], IPv6 first) and
      [ip_filter::add_rule] of libtorrent.
    - [m_filter] is the sequence of rules handed to [add_rule], oldest first.
    - [ruleCount] is an integer; files long enough to overflow an [int] are
      out of reach.
    - [QDataStream::readRawData] on an opened file returns the number of bytes
      it could read, between 0 and the number asked for.
    - [m_abort] is written by another thread.  During one run it only ever goes
      from [false] to [true]; the run observes it through polls, and the
      schedule says from which poll on the flag reads [true].
    - Local variables that the C++ code leaves uninitialised get their initial
      bytes from an arbitrary [garbage] function.
    - [qDebug] traces are not kept; the exit taken by a line is. *)

From Stdlib Require Import String Strings.Byte.
From Stdlib Require Import List ZArith Lia Bool Arith.
From Equations Require Import Equations.
Import ListNotations.

(** ** Bytes and the Qt text operations used by the parsers *)

Definition bytes (s : string) : list byte := list_byte_of_string s.

Definition code (b : byte) : Z := Z.of_N (Byte.to_N b).

Definition ch_nul : byte := x00.
Definition ch_lf : byte := x0a.
Definition ch_hash : byte := x23.
Definition ch_comma : byte := x2c.
Definition ch_dash : byte := x2d.
Definition ch_dot : byte := x2e.
Definition ch_slash : byte := x2f.
Definition ch_zero : byte := x30.
Definition ch_colon : byte := x3a.
Definition ch_plus : byte := x2b.

(** [isspace] in the C locale: TAB, LF, VT, FF, CR and space. *)
Definition isspace (b : byte) : bool :=
  ((9 <=? code b) && (code b <=? 13) || (code b =? 32))%Z.

Definition isdigit (b : byte) : bool :=
  ((48 <=? code b) && (code b <=? 57))%Z.

Definition digit_val (b : byte) : Z := (code b - 48)%Z.

Fixpoint dropWhile (p : byte -> bool) (l : list byte) : list byte :=
  match l with
  | [] => []
  | c :: l' => if p c then dropWhile p l' else l
  end.

(** [QByteArray::trimmed] / [QString::trimmed]. *)
Definition trimmed (l : list byte) : list byte :=
  rev (dropWhile isspace (rev (dropWhile isspace l))).

(** [QByteArray::split(sep)]: empty parts are kept, so the result is never
    empty. *)
Fixpoint split (sep : byte) (l : list byte) : list (list byte) :=
  match l with
  | [] => [[]]
  | c :: l' =>
      if Byte.eqb c sep then [] :: split sep l'
      else match split sep l' with
           | [] => [[c]]
           | p :: ps => (c :: p) :: ps
           end
  end.

Definition isEmpty (l : list byte) : bool :=
  match l with [] => true | _ => false end.

(** [QString::split(sep, QString::SkipEmptyParts)]. *)
Definition split_skip_empty (sep : byte) (l : list byte) : list (list byte) :=
  filter (fun p => negb (isEmpty p)) (split sep l).

(** [QStringList::join(sep)]. *)
Fixpoint join (sep : list byte) (parts : list (list byte)) : list byte :=
  match parts with
  | [] => []
  | [p] => p
  | p :: ps => p ++ sep ++ join sep ps
  end.

Fixpoint startsWith (prefix l : list byte) : bool :=
  match prefix, l with
  | [], _ => true
  | _ :: _, [] => false
  | a :: prefix', b :: l' => Byte.eqb a b && startsWith prefix' l'
  end.

(** [constData()] handed to a function that takes a C string: the text stops at
    the first NUL. *)
Fixpoint c_str (l : list byte) : list byte :=
  match l with
  | [] => []
  | c :: l' => if Byte.eqb c ch_nul then [] else c :: c_str l'
  end.

(** Decimal digits to a number, most significant first; [None] when the text is
    empty or holds another character. *)
Fixpoint digits_from (acc : Z) (l : list byte) : option Z :=
  match l with
  | [] => Some acc
  | c :: l' => if isdigit c then digits_from (acc * 10 + digit_val c)%Z l' else None
  end.

Definition decimal (l : list byte) : option Z :=
  match l with
  | [] => None
  | _ => digits_from 0 l
  end.

Definition INT_MIN : Z := (- 2 ^ 31)%Z.
Definition INT_MAX : Z := (2 ^ 31 - 1)%Z.

(** [QByteArray::toInt(&ok)] in base 10, as a partial function: an optional sign
    followed by decimal digits, the value within the range of [int]. *)
Definition toInt_ok (l : list byte) : option Z :=
  let s := c_str l in
  let signed :=
    match s with
    | c :: s' =>
        if Byte.eqb c ch_dash then option_map Z.opp (decimal s')
        else if Byte.eqb c ch_plus then decimal s'
        else decimal s
    | [] => None
    end in
  match signed with
  | Some v => if ((INT_MIN <=? v) && (v <=? INT_MAX))%Z then Some v else None
  | None => None
  end.

(** [QByteArray::toInt()]: 0 when the conversion fails. *)
Definition toInt (l : list byte) : Z :=
  match toInt_ok l with
  | Some v => v
  | None => 0%Z
  end.

(** ** Addresses and the standard address-literal parser

    [libtorrent::address] is [boost::asio::ip::address]; [from_string] tries
    the IPv6 syntax first and the IPv4 dotted-decimal syntax second, each with
    the rules of POSIX [inet_pton]. *)

Inductive address : Type :=
| V4 (a : Z)
| V6 (a : Z).

Definition is_v4 (a : address) : bool :=
  match a with V4 _ => true | V6 _ => false end.

Definition is_v6 (a : address) : bool :=
  match a with V4 _ => false | V6 _ => true end.

(** Big-endian value of a sequence of octets. *)
Definition be_value (octets : list Z) : Z :=
  fold_left (fun acc o => (acc * 256 + o)%Z) octets 0%Z.

(** [inet_pton(AF_INET, ...)]: four decimal fields of one to three digits
    separated by single dots, no leading zero in a field of several digits, no
    field above 255. *)
Fixpoint pton4_loop (src : list byte) (done : list Z) (cur : Z)
         (saw_digit : bool) (octets : nat) : option (list Z) :=
  match src with
  | [] => if octets <? 4 then None else Some (done ++ [cur])
  | ch :: src' =>
      if isdigit ch then
        let new := (cur * 10 + digit_val ch)%Z in
        if saw_digit && (cur =? 0)%Z then None
        else if (255 <? new)%Z then None
        else if saw_digit then pton4_loop src' done new true octets
        else if 4 <? S octets then None
        else pton4_loop src' done new true (S octets)
      else if Byte.eqb ch ch_dot && saw_digit then
        if octets =? 4 then None
        else pton4_loop src' (done ++ [cur]) 0%Z false octets
      else None
  end.

Definition inet_pton4 (src : list byte) : option (list Z) :=
  pton4_loop src [] 0%Z false 0.

Definition xdigit_val (b : byte) : option Z :=
  let c := code b in
  if ((48 <=? c) && (c <=? 57))%Z then Some (c - 48)%Z
  else if ((97 <=? c) && (c <=? 102))%Z then Some (c - 87)%Z
  else if ((65 <=? c) && (c <=? 70))%Z then Some (c - 55)%Z
  else None.

Definition hi_octet (val : Z) : Z := Z.land (Z.shiftr val 8) 255.
Definition lo_octet (val : Z) : Z := Z.land val 255.

(** End of [inet_pton(AF_INET6, ...)]: flush the pending group, then expand the
    [::] gap, if there was one, to fill the 16 octets. *)
Definition pton6_finish (tp : list Z) (colonp : option nat)
           (saw_xdigit : bool) (val : Z) : option (list Z) :=
  let flushed :=
    if saw_xdigit then
      if 16 <? length tp + 2 then None
      else Some (tp ++ [hi_octet val; lo_octet val])
    else Some tp in
  match flushed with
  | None => None
  | Some tp' =>
      match colonp with
      | Some c =>
          if length tp' =? 16 then None
          else Some (firstn c tp' ++ repeat 0%Z (16 - length tp') ++ skipn c tp')
      | None => if length tp' =? 16 then Some tp' else None
      end
  end.

Fixpoint pton6_loop (src : list byte) (tp : list Z) (colonp : option nat)
         (curtok : list byte) (saw_xdigit : bool) (seen : nat) (val : Z)
  : option (list Z) :=
  match src with
  | [] => pton6_finish tp colonp saw_xdigit val
  | ch :: src' =>
      match xdigit_val ch with
      | Some d =>
          if seen =? 4 then None
          else
            let val' := Z.lor (Z.shiftl val 4) d in
            if (65535 <? val')%Z then None
            else pton6_loop src' tp colonp curtok true (S seen) val'
      | None =>
          if Byte.eqb ch ch_colon then
            if negb saw_xdigit then
              match colonp with
              | Some _ => None
              | None => pton6_loop src' tp (Some (length tp)) src' saw_xdigit seen val
              end
            else if isEmpty src' then None
            else if 16 <? length tp + 2 then None
            else pton6_loop src' (tp ++ [hi_octet val; lo_octet val]) colonp src'
                            false 0 0%Z
          else if Byte.eqb ch ch_dot && (length tp + 4 <=? 16) then
            match inet_pton4 curtok with
            | Some o4 => pton6_finish (tp ++ o4) colonp false val
            | None => None
            end
          else None
      end
  end.

Definition inet_pton6 (src : list byte) : option (list Z) :=
  match src with
  | c :: src' =>
      if Byte.eqb c ch_colon then
        match src' with
        | c' :: _ =>
            if Byte.eqb c' ch_colon then pton6_loop src' [] None src' false 0 0%Z
            else None
        | [] => None
        end
      else pton6_loop src [] None src false 0 0%Z
  | [] => pton6_loop src [] None src false 0 0%Z
  end.

(** [libt::address::from_string(str, ec)]; [None] stands for a set [ec]. *)
Definition from_string (str : list byte) : option address :=
  match inet_pton6 str with
  | Some o => Some (V6 (be_value o))
  | None =>
      match inet_pton4 str with
      | Some o => Some (V4 (be_value o))
      | None => None
      end
  end.

(** ** [parseIPAddress] *)

(** Body of the loop over the four octets: what is stored back in
    [octets[i]]. *)
Definition strip_octet (octet : list byte) : list byte :=
  match octet with
  | c0 :: rest =>
      if Byte.eqb c0 ch_zero && (1 <? length octet) then
        match rest with
        | c1 :: _ =>
            if Byte.eqb c1 ch_zero && (2 <? length octet) then skipn 2 octet
            else skipn 1 octet
        | [] => skipn 1 octet
        end
      else octet
  | [] => octet
  end.

Fixpoint set_nth (i : nat) (v : list byte) (l : list (list byte)) : list (list byte) :=
  match l, i with
  | [], _ => []
  | _ :: l', 0 => v :: l'
  | x :: l', S i' => x :: set_nth i' v l'
  end.

(** [for (int i = 0; i < 4; i++)], with [n] iterations left. *)
Fixpoint strip_loop (n i : nat) (octets : list (list byte)) : list (list byte) :=
  match n with
  | 0 => octets
  | S n' => strip_loop n' (S i) (set_nth i (strip_octet (nth i octets [])) octets)
  end.

(** The text handed to [from_string]. *)
Definition normalizeIP (_ip : list byte) : list byte :=
  let _ip := trimmed _ip in
  let octets := split_skip_empty ch_dot _ip in
  if length octets =? 4 then join [ch_dot] (strip_loop 4 0 octets) else _ip.

Definition parseIPAddress (_ip : list byte) : option address :=
  from_string (c_str (normalizeIP _ip)).

(** ** The filter, the logger and the state of the worker thread *)

(** One call of [m_filter.add_rule(first, last, libt::ip_filter::blocked)]. *)
Record rule : Type := Rule { first : address; last : address }.

Definition ip_filter : Type := list rule.

(** [ip_filter::add_rule]: the range is stored in the table of its family;
    asking an address of the other family for its [to_v4()]/[to_v6()] value
    throws, which is [None] here. *)
Definition add_rule (a b : address) (f : ip_filter) : option ip_filter :=
  if Bool.eqb (is_v4 a) (is_v4 b) then Some (f ++ [Rule a b]) else None.

(** Messages sent to [Logger::instance()] with level [Log::CRITICAL]. *)
Inductive log_msg : Type :=
| IOError        (* "I/O Error: Could not open ip filter file in read mode." *)
| ParsingError.  (* "Parsing Error: The filter file is not a valid PeerGuardian P2B file." *)

(** What [QFile] finds at a path. *)
Inductive file_status : Type :=
| Missing
| Unreadable
| Readable (content : list byte).

Inductive signal : Type :=
| IPFilterParsed (ruleCount : Z)
| IPFilterError.

(** The members the run touches, the logger, and the number of times
    [m_abort] has been read so far. *)
Record thread : Type := Thread {
  m_filter : ip_filter;
  logged : list log_msg;
  polls : nat
}.

Definition addMessage (m : log_msg) (th : thread) : thread :=
  Thread (m_filter th) (logged th ++ [m]) (polls th).

Definition set_filter (f : ip_filter) (th : thread) : thread :=
  Thread f (logged th) (polls th).

(** The world around one run. *)
Record env : Type := Env {
  fs : list byte -> file_status;  (* the file system, by path *)
  abort_at : option nat;          (* first poll of [m_abort] that reads [true] *)
  emit_throws : bool;             (* a slot connected to [IPFilterParsed] throws *)
  little_endian : bool;           (* byte order of the host *)
  garbage : nat -> byte           (* bytes found in uninitialised locals *)
}.

Definition flag_at (E : env) (k : nat) : bool :=
  match abort_at E with
  | Some a => a <=? k
  | None => false
  end.

(** Reading [m_abort]. *)
Definition read_abort (E : env) (th : thread) : bool * thread :=
  (flag_at E (polls th), Thread (m_filter th) (logged th) (S (polls th))).

(** ** Text files: lines *)

(** [QFile::readLine()]: up to and including the next LF, or to the end. *)
Fixpoint readLine (file : list byte) : list byte * list byte :=
  match file with
  | [] => ([], [])
  | c :: f =>
      if Byte.eqb c ch_lf then ([c], f)
      else let (l, r) := readLine f in (c :: l, r)
  end.

(** Closes [length (snd (readLine (c :: f))) < length (c :: f)]: a line read
    from a file that is not at its end takes at least one byte. *)
Ltac line_shorter :=
  repeat match goal with H : _ |- _ => clear H end;
  match goal with
  | |- length (snd (readLine (?c :: ?f))) < length (?c :: ?f) =>
      revert c; induction f as [|d f IH]; intros c; simpl;
      [ destruct (Byte.eqb c ch_lf); simpl; lia
      | destruct (Byte.eqb c ch_lf); simpl; [lia|];
        specialize (IH d); simpl in IH;
        destruct (Byte.eqb d ch_lf); simpl in *; [lia|];
        destruct (readLine f); simpl in *; lia ]
  end.

(** Where one iteration of a line loop ends: one of the [continue]s, or the
    call of [add_rule]. *)
Inductive skip_reason : Type :=
| EmptyLine
| CommentLine
| NoFields
| TooFewFields
| AccessTooHigh
| NotTwoIPs
| BadStartIP
| BadEndIP
| V4Mismatch
| V6Mismatch.

Inductive line_result : Type :=
| Skip (why : skip_reason)
| AddRule (startAddr endAddr : address).

Definition is_comment (line : list byte) : bool :=
  startsWith [ch_hash] line || startsWith [ch_slash; ch_slash] line.

(** Body of the loop of [parseDATFilterFile], from [file.readLine()] to the
    [try] block. *)
Definition dat_line (raw : list byte) : line_result :=
  let line := trimmed raw in
  if isEmpty line then Skip EmptyLine
  else if is_comment line then Skip CommentLine
  else
    let partsList := split ch_comma line in
    match partsList with
    | [] => Skip NoFields
    | _ =>
        if (1 <? length partsList)
           && (127 <? toInt (trimmed (nth 1 partsList [])))%Z
        then Skip AccessTooHigh
        else
          let IPs := split ch_dash (hd [] partsList) in
          if negb (length IPs =? 2) then Skip NotTwoIPs
          else
            match parseIPAddress (nth 0 IPs []) with
            | None => Skip BadStartIP
            | Some startAddr =>
                match parseIPAddress (nth 1 IPs []) with
                | None => Skip BadEndIP
                | Some endAddr =>
                    if negb (Bool.eqb (is_v4 startAddr) (is_v4 endAddr))
                    then Skip V4Mismatch
                    else if negb (Bool.eqb (is_v6 startAddr) (is_v6 endAddr))
                    then Skip V6Mismatch
                    else AddRule startAddr endAddr
                end
            end
    end.

(** Body of the loop of [parseP2PFilterFile]. *)
Definition p2p_line (raw : list byte) : line_result :=
  let line := trimmed raw in
  if isEmpty line then Skip EmptyLine
  else if is_comment line then Skip CommentLine
  else
    let partsList := split ch_colon line in
    if length partsList <? 2 then Skip TooFewFields
    else
      let IPs := split ch_dash (List.last partsList []) in
      if negb (length IPs =? 2) then Skip NotTwoIPs
      else
        match parseIPAddress (nth 0 IPs []) with
        | None => Skip BadStartIP
        | Some startAddr =>
            match parseIPAddress (nth 1 IPs []) with
            | None => Skip BadEndIP
            | Some endAddr =>
                if negb (Bool.eqb (is_v4 startAddr) (is_v4 endAddr))
                then Skip V4Mismatch
                else if negb (Bool.eqb (is_v6 startAddr) (is_v6 endAddr))
                then Skip V6Mismatch
                else AddRule startAddr endAddr
            end
        end.

(** The [try { add_rule; ++ruleCount; } catch (std::exception &) { }] block on
    the pair of the local [ruleCount] and the thread. *)
Definition try_add_rule (a b : address) (st : Z * thread) : Z * thread :=
  let (ruleCount, th) := st in
  match add_rule a b (m_filter th) with
  | Some f => ((ruleCount + 1)%Z, set_filter f th)
  | None => st
  end.

Definition apply_line (r : line_result) (st : Z * thread) : Z * thread :=
  match r with
  | Skip _ => st
  | AddRule a b => try_add_rule a b st
  end.

#[local] Obligation Tactic := idtac.

(** [while (!file.atEnd() && !m_abort) { line = file.readLine(); body }]:
    [m_abort] is read only when the file is not at its end. *)
Equations? line_loop (E : env) (body : list byte -> line_result)
          (file : list byte) (st : Z * thread) : Z * thread
  by wf (length file) lt :=
  line_loop E body [] st := st;
  line_loop E body (c :: f) st :=
    let (flag, th) := read_abort E (snd st) in
    if flag then (fst st, th)
    else line_loop E body (snd (readLine (c :: f)))
                   (apply_line (body (fst (readLine (c :: f)))) (fst st, th)).
Proof. line_shorter. Qed.

(** [parseDATFilterFile], returning [ruleCount]. *)
Definition parseDATFilterFile (E : env) (m_filePath : list byte) (th : thread)
  : Z * thread :=
  let ruleCount := 0%Z in
  match fs E m_filePath with
  | Missing => (ruleCount, th)
  | Unreadable => (ruleCount, addMessage IOError th)
  | Readable content => line_loop E dat_line content (ruleCount, th)
  end.

(** [parseP2PFilterFile], returning [ruleCount]. *)
Definition parseP2PFilterFile (E : env) (m_filePath : list byte) (th : thread)
  : Z * thread :=
  let ruleCount := 0%Z in
  match fs E m_filePath with
  | Missing => (ruleCount, th)
  | Unreadable => (ruleCount, addMessage IOError th)
  | Readable content => line_loop E p2p_line content (ruleCount, th)
  end.

Definition fresh : thread := Thread [] [] 0.

(** An environment with one readable file at every path and no cancellation. *)
Definition quiet (content : list byte) : env :=
  Env (fun _ => Readable content) None false true (fun _ => x00).

(** ** Binary files: [QDataStream] and host byte order *)

(** The outcome of [stream.readRawData(buf, len)] on a stream with [s] left:
    the number of bytes read, the destination afterwards (the bytes read, then
    what was there before), and the stream afterwards. *)
Record raw_read : Type := RawRead {
  nread : Z;
  mem : list byte;
  rest : list byte
}.

Definition readRawData (len : nat) (buf : list byte) (s : list byte) : raw_read :=
  let got := firstn len s in
  RawRead (Z.of_nat (length got)) (got ++ skipn (length got) buf) (skipn len s).

(** An uninitialised local of [n] bytes at stack slot [off]. *)
Definition uninit (E : env) (off n : nat) : list byte :=
  map (garbage E) (seq off n).

(** The value of an [unsigned int] whose storage holds [m]. *)
Definition load32 (E : env) (m : list byte) : Z :=
  if little_endian E then be_value (rev (map code m))
  else be_value (map code m).

Definition bswap32 (x : Z) : Z :=
  Z.lor (Z.lor (Z.shiftl (Z.land x 255) 24)
               (Z.shiftl (Z.land (Z.shiftr x 8) 255) 16))
        (Z.lor (Z.shiftl (Z.land (Z.shiftr x 16) 255) 8)
               (Z.land (Z.shiftr x 24) 255)).

Definition ntohl (E : env) (x : Z) : Z :=
  if little_endian E then bswap32 x else x.

(** [FilterParserThread::getlineInStream], started with [total_read] bytes
    already counted.  Returns [total_read], [name] and the stream. *)
Fixpoint getline_from (total_read : Z) (stream name : list byte) (delim : byte)
  : Z * list byte * list byte :=
  match stream with
  | [] => (total_read, name, [])
  | c :: s' =>
      let total_read := (total_read + 1)%Z in
      if negb (Byte.eqb c delim) then getline_from total_read s' (name ++ [c]) delim
      else (total_read, name, s')
  end.

Definition getlineInStream (stream name : list byte) (delim : byte)
  : Z * list byte * list byte :=
  getline_from 0 stream name delim.

Definition gl_total (r : Z * list byte * list byte) : Z := fst (fst r).
Definition gl_name (r : Z * list byte * list byte) : list byte := snd (fst r).
Definition gl_rest (r : Z * list byte * list byte) : list byte := snd r.

(** Closes [length (gl_rest (getline_from t s name d)) <= length s]. *)
Ltac getline_not_longer :=
  match goal with
  | |- length (gl_rest (getline_from _ _ _ ?d)) <= length _ =>
      let H := fresh in
      assert (H : forall (s0 : list byte) (t0 : Z) (n0 : list byte),
                 length (gl_rest (getline_from t0 s0 n0 d)) <= length s0);
      [ repeat match goal with X : _ |- _ => clear X end;
        intros s0; induction s0 as [|c0 s0 IH]; intros t0 n0; simpl; [lia|];
        destruct (Byte.eqb c0 d); simpl; [lia|];
        specialize (IH (t0 + 1)%Z (n0 ++ [c0])); lia
      | apply H ]
  end.

(** Closes [length (gl_rest (getlineInStream (c :: s) name d)) < length (c :: s)]:
    on a stream that is not at its end [getlineInStream] takes at least one
    byte. *)
Ltac getline_shorter :=
  match goal with
  | |- length (gl_rest (getlineInStream (?c :: ?s) ?name ?d)) < length (?c :: ?s) =>
      let H := fresh in
      assert (H : length (gl_rest (getline_from 1 s (name ++ [c]) d)) <= length s)
        by getline_not_longer;
      unfold getlineInStream; simpl;
      destruct (Byte.eqb c d); simpl; simpl in H; lia
  end.

Definition magic : list byte := [xff; xff; xff; xff; x50; x32; x42].

Fixpoint bytes_eqb (a b : list byte) : bool :=
  match a, b with
  | [], [] => true
  | x :: a', y :: b' => Byte.eqb x y && bytes_eqb a' b'
  | _, _ => false
  end.

(** [memcmp(a, b, n) != 0]. *)
Definition memcmp_differs (a b : list byte) (n : nat) : bool :=
  negb (bytes_eqb (firstn n a) (firstn n b)).

(** The result of [parseP2BFilterFile] together with what is left unread. *)
Definition p2b_result : Type := (Z * thread) * list byte.

Definition p2b_fatal (st : Z * thread) (s : list byte) : p2b_result :=
  ((fst st, addMessage ParsingError (snd st)), s).

Definition address_v4 (x : Z) : address := V4 x.

(** The loop of versions 1 and 2.  [name], [start] and [end] live across
    iterations.  On an exhausted stream [getlineInStream] returns 0 and the
    loop ends. *)
Equations? v12_loop (E : env) (s name start_ end_ : list byte) (st : Z * thread)
  : p2b_result by wf (length s) lt :=
  v12_loop E [] name start_ end_ st := (st, []);
  v12_loop E (c :: s') name start_ end_ st :=
    let g := getlineInStream (c :: s') name ch_nul in
    if (gl_total g =? 0)%Z then (st, gl_rest g)
    else
      let (flag, th) := read_abort E (snd st) in
      if flag then ((fst st, th), gl_rest g)
      else
        let r1 := readRawData 4 start_ (gl_rest g) in
        if (nread r1 =? 0)%Z then p2b_fatal (fst st, th) (rest r1)
        else
          let r2 := readRawData 4 end_ (rest r1) in
          if (nread r2 =? 0)%Z then p2b_fatal (fst st, th) (rest r2)
          else
            v12_loop E (rest r2) (gl_name g) (mem r1) (mem r2)
                     (try_add_rule (address_v4 (ntohl E (load32 E (mem r1))))
                                   (address_v4 (ntohl E (load32 E (mem r2))))
                                   (fst st, th)).
Proof.
  subst r2 r1 g. cbn [readRawData rest].
  assert (Hg : length (gl_rest (getlineInStream (c :: s') name ch_nul))
               < length (c :: s')) by getline_shorter.
  rewrite !length_skipn. lia.
Qed.

(** What a loop of version 3 hands on: an early [return ruleCount], or the
    state after the loop. *)
Inductive flow : Type :=
| Return (r : p2b_result)
| Fallthrough (r : p2b_result).

(** [for (unsigned int i = 0; i < namecount; ++i)] of version 3.  On an
    exhausted stream [getlineInStream] returns 0. *)
Equations? names_loop (E : env) (i namecount : Z) (s : list byte) (st : Z * thread)
  : flow by wf (length s) lt :=
  names_loop E i namecount s st with (i <? namecount)%Z => {
    | false := Fallthrough (st, s);
    | true with s => {
        | [] := Return (p2b_fatal st []);
        | c :: s' :=
            let g := getlineInStream (c :: s') [] ch_nul in
            if (gl_total g =? 0)%Z then Return (p2b_fatal st (gl_rest g))
            else
              let (flag, th) := read_abort E (snd st) in
              if flag then Return ((fst st, th), gl_rest g)
              else names_loop E (i + 1)%Z namecount (gl_rest g) (fst st, th) } }.
Proof. subst g. getline_shorter. Qed.

(** [for (unsigned int i = 0; i < rangecount; ++i)] of version 3.  On an
    exhausted stream the first [readRawData] returns 0. *)
Equations? ranges_loop (E : env) (i rangecount : Z) (s name start_ end_ : list byte)
          (st : Z * thread) : flow by wf (length s) lt :=
  ranges_loop E i rangecount s name start_ end_ st with (i <? rangecount)%Z => {
    | false := Fallthrough (st, s);
    | true with s => {
        | [] := Return (p2b_fatal st []);
        | c :: s' :=
            let r0 := readRawData 4 name (c :: s') in
            if (nread r0 =? 0)%Z then Return (p2b_fatal st (rest r0))
            else
              let r1 := readRawData 4 start_ (rest r0) in
              if (nread r1 =? 0)%Z then Return (p2b_fatal st (rest r1))
              else
                let r2 := readRawData 4 end_ (rest r1) in
                if (nread r2 =? 0)%Z then Return (p2b_fatal st (rest r2))
                else
                  let st' :=
                    try_add_rule (address_v4 (ntohl E (load32 E (mem r1))))
                                 (address_v4 (ntohl E (load32 E (mem r2)))) st in
                  let (flag, th) := read_abort E (snd st') in
                  if flag then Return ((fst st', th), rest r2)
                  else ranges_loop E (i + 1)%Z rangecount (rest r2)
                                   (mem r0) (mem r1) (mem r2) (fst st', th) } }.
Proof.
  subst r2 r1 r0. cbn [readRawData rest].
  rewrite !length_skipn. cbn [length]. lia.
Qed.

(** [parseP2BFilterFile] on an opened file. *)
Definition parseP2BStream (E : env) (content : list byte) (th : thread) : p2b_result :=
  let ruleCount := 0%Z in
  let h := readRawData 7 (uninit E 0 7) content in
  if (nread h =? 0)%Z || memcmp_differs (mem h) magic 7
  then p2b_fatal (ruleCount, th) (rest h)
  else
    let v := readRawData 1 (uninit E 7 1) (rest h) in
    if (nread v =? 0)%Z then p2b_fatal (ruleCount, th) (rest v)
    else
      let version := code (hd x00 (mem v)) in
      if ((version =? 1) || (version =? 2))%Z then
        v12_loop E (rest v) [] (uninit E 8 4) (uninit E 12 4) (ruleCount, th)
      else if (version =? 3)%Z then
        let nc := readRawData 4 (uninit E 16 4) (rest v) in
        if (nread nc =? 0)%Z then p2b_fatal (ruleCount, th) (rest nc)
        else
          let namecount := ntohl E (load32 E (mem nc)) in
          match names_loop E 0 namecount (rest nc) (ruleCount, th) with
          | Return r => r
          | Fallthrough (st, s) =>
              let rc := readRawData 4 (uninit E 20 4) s in
              if (nread rc =? 0)%Z then p2b_fatal st (rest rc)
              else
                let rangecount := ntohl E (load32 E (mem rc)) in
                match ranges_loop E 0 rangecount (rest rc)
                                  (uninit E 24 4) (uninit E 8 4) (uninit E 12 4) st with
                | Return r => r
                | Fallthrough r => r
                end
          end
      else p2b_fatal (ruleCount, th) (rest v).

(** [parseP2BFilterFile], returning [ruleCount]. *)
Definition parseP2BFilterFile (E : env) (m_filePath : list byte) (th : thread)
  : Z * thread :=
  let ruleCount := 0%Z in
  match fs E m_filePath with
  | Missing => (ruleCount, th)
  | Unreadable => (ruleCount, addMessage IOError th)
  | Readable content => fst (parseP2BStream E content th)
  end.

(** ** [run] and [processFilterFile] *)

Definition toLower (b : byte) : byte :=
  if ((65 <=? code b) && (code b <=? 90))%Z then
    match Byte.of_N (Byte.to_N b + 32) with
    | Some b' => b'
    | None => b
    end
  else b.

(** [QString::endsWith(suffix, Qt::CaseInsensitive)]. *)
Definition endsWith_ci (suffix path : list byte) : bool :=
  startsWith (rev (map toLower suffix)) (rev (map toLower path)).

Inductive format : Type := P2P | P2B | DAT.

(** The branch [run] takes on [m_filePath]. *)
Definition dispatch (m_filePath : list byte) : option format :=
  if endsWith_ci (bytes ".p2p") m_filePath then Some P2P
  else if endsWith_ci (bytes ".p2b") m_filePath then Some P2B
  else if endsWith_ci (bytes ".dat") m_filePath then Some DAT
  else None.

Record run_result : Type := RunResult {
  parser : option format;   (* the parser that was called *)
  count : Z;                (* the local [ruleCount] *)
  after : thread;
  signals : list signal     (* what was emitted, in order *)
}.

(** [FilterParserThread::run]. *)
Definition run (E : env) (m_filePath : list byte) (th : thread) : run_result :=
  let ruleCount := 0%Z in
  let (ruleCount, th1) :=
    match dispatch m_filePath with
    | Some P2P => parseP2PFilterFile E m_filePath th
    | Some P2B => parseP2BFilterFile E m_filePath th
    | Some DAT => parseDATFilterFile E m_filePath th
    | None => (ruleCount, th)
    end in
  let (flag, th2) := read_abort E th1 in
  if flag then RunResult (dispatch m_filePath) ruleCount th2 []
  else
    RunResult (dispatch m_filePath) ruleCount th2
              (IPFilterParsed ruleCount
               :: (if emit_throws E then [IPFilterError] else [])).

(** [FilterParserThread::processFilterFile] once no run is active: a new
    [ip_filter], then [start()]. *)
Definition processFilterFile (E : env) (filePath : list byte) (th : thread)
  : run_result :=
  run E filePath (set_filter [] th).

(** A P2B file of version 1 with one record. *)
Definition p2b_one_record : list byte :=
  magic ++ [x01] ++ bytes "A" ++ [x00]
        ++ [x01; x02; x03; x04] ++ [x01; x02; x03; x09].

(** ** Vocabulary of the properties *)




Definition no_nul (l : list byte) : bool :=
  forallb (fun b => negb (Byte.eqb b ch_nul)) l.

(** What the format descriptions ask of a range field: split it on '-' into
    exactly two parts, parse both parts as addresses, require one family, add
    the rule.  The two parsers are compared with this description. *)
Definition range_field (field : list byte) : line_result :=
  match split ch_dash field with
  | [a; b] =>
      match parseIPAddress a, parseIPAddress b with
      | None, _ => Skip BadStartIP
      | Some _, None => Skip BadEndIP
      | Some startAddr, Some endAddr =>
          match startAddr, endAddr with
          | V4 _, V4 _ | V6 _, V6 _ => AddRule startAddr endAddr
          | _, _ => Skip V4Mismatch
          end
      end
  | _ => Skip NotTwoIPs
  end.

(** The part of both loop bodies after the field has been chosen. *)
Definition after_field (field : list byte) : line_result :=
  let IPs := split ch_dash field in
  if negb (length IPs =? 2) then Skip NotTwoIPs
  else
    match parseIPAddress (nth 0 IPs []) with
    | None => Skip BadStartIP
    | Some startAddr =>
        match parseIPAddress (nth 1 IPs []) with
        | None => Skip BadEndIP
        | Some endAddr =>
            if negb (Bool.eqb (is_v4 startAddr) (is_v4 endAddr))
            then Skip V4Mismatch
            else if negb (Bool.eqb (is_v6 startAddr) (is_v6 endAddr))
            then Skip V6Mismatch
            else AddRule startAddr endAddr
        end
    end.

(** A version 1 file whose only record stops two bytes into [end]. *)
Definition p2b_v1_cut_end : list byte :=
  magic ++ [x01] ++ bytes "A" ++ [x00] ++ [x01; x02; x03; x04] ++ [x01; x02].

(** A version 3 file with no names and one range record that stops two bytes
    into [end]. *)
Definition p2b_v3_cut_end : list byte :=
  magic ++ [x03] ++ [x00; x00; x00; x00] ++ [x00; x00; x00; x01]
        ++ [x00; x00; x00; x00] ++ [x01; x02; x03; x04] ++ [x01; x02].


(** [st'] holds the rules of [st] followed by further ones, and its rule count
    went up by their number. *)
Definition grows (st st' : Z * thread) : Prop :=
  exists more : list rule,
    m_filter (snd st') = m_filter (snd st) ++ more
    /\ fst st' = (fst st + Z.of_nat (length more))%Z.

(** Polls of [m_abort] between [k] and [k']: once a poll has read [true] at
    most one more poll follows. *)
Definition prompt (E : env) (k k' : nat) : Prop :=
  k <= k' /\ forall a, abort_at E = Some a -> k' <= Nat.max a k + 1.

(** No poll between [k] and [k'] has read [true]. *)
Definition unseen (E : env) (k k' : nat) : Prop :=
  k <= k' /\ forall a, abort_at E = Some a -> k' <= Nat.max a k.

(** Closes [grows st st'] when [st'] differs from [st] in the log or the poll
    count only. *)
Ltac grows_nil :=
  exists []; simpl; rewrite app_nil_r; split; [reflexivity|lia].

(** The thread after one read of [m_abort]. *)
Definition polled (th : thread) : thread :=
  Thread (m_filter th) (logged th) (S (polls th)).

(** The result of either way out of a loop of version 3. *)
Definition flow_result (f : flow) : p2b_result :=
  match f with
  | Return r => r
  | Fallthrough r => r
  end.

(** The call [run] makes for a path. *)
Definition call_parser (E : env) (fmt : option format) (m_filePath : list byte)
           (th : thread) : Z * thread :=
  match fmt with
  | Some P2P => parseP2PFilterFile E m_filePath th
  | Some P2B => parseP2BFilterFile E m_filePath th
  | Some DAT => parseDATFilterFile E m_filePath th
  | None => (0%Z, th)
  end.

(** A DAT file of three rules. *)
Definition three_rules : list byte :=
  bytes "10.0.0.1-10.0.0.9
10.0.1.1-10.0.1.9
10.0.2.1-10.0.2.9
".

(** ** Vocabulary of the further properties *)

Definition all_space (ws : list byte) : bool := forallb isspace ws.

(** [sep] does not occur in [l]. *)
Definition free_of (sep : byte) (l : list byte) : bool :=
  forallb (fun b => negb (Byte.eqb b sep)) l.

(** The number of times [sep] occurs in [l]. *)
Definition occurrences (sep : byte) (l : list byte) : nat :=
  length (filter (fun b => Byte.eqb b sep) l).

(** The lines [readLine] returns one after the other until [atEnd]. *)
Fixpoint file_lines (file : list byte) : list (list byte) :=
  match file with
  | [] => []
  | c :: f =>
      if Byte.eqb c ch_lf then [c] :: file_lines f
      else match file_lines f with
           | [] => [[c]]
           | l :: ls => (c :: l) :: ls
           end
  end.

(** The rules a sequence of lines adds to an empty filter, in order. *)
Definition line_rules (body : list byte -> line_result) (lines : list (list byte))
  : list rule :=
  flat_map (fun l => match body l with
                     | AddRule a b =>
                         match add_rule a b [] with
                         | Some f => f
                         | None => []
                         end
                     | Skip _ => []
                     end) lines.

(** Four bytes as they lie in a file, and their big-endian value. *)
Definition quad : Type := (byte * byte * byte * byte)%type.

Definition quad_bytes (q : quad) : list byte :=
  let '(a, b, c, d) := q in [a; b; c; d].

Definition quad_value (q : quad) : Z := be_value (map code (quad_bytes q)).

(** A record of a P2B file of version 1 or 2, and a file body made of such
    records. *)
Record p2b_record : Type := P2BRecord {
  rec_name : list byte;
  rec_start : quad;
  rec_end : quad
}.

Definition encode_record (r : p2b_record) : list byte :=
  rec_name r ++ ch_nul :: quad_bytes (rec_start r) ++ quad_bytes (rec_end r).

Definition encode_v12 (records : list p2b_record) : list byte :=
  flat_map encode_record records.

Definition record_rule (r : p2b_record) : rule :=
  Rule (V4 (quad_value (rec_start r))) (V4 (quad_value (rec_end r))).

(** The two tables of a P2B file of version 3. *)
Record p2b_range : Type := P2BRange {
  range_name : quad;
  range_start : quad;
  range_end : quad
}.

Definition encode_names (names : list (list byte)) : list byte :=
  flat_map (fun name => name ++ [ch_nul]) names.

Definition encode_range (r : p2b_range) : list byte :=
  quad_bytes (range_name r) ++ quad_bytes (range_start r) ++ quad_bytes (range_end r).

Definition encode_ranges (ranges : list p2b_range) : list byte :=
  flat_map encode_range ranges.

Definition range_rule (r : p2b_range) : rule :=
  Rule (V4 (quad_value (range_start r))) (V4 (quad_value (range_end r))).

(** An IPv4 rule with bounds that fit 32 bits. *)
Definition v4_rule (r : rule) : Prop :=
  exists x y : Z,
    r = Rule (V4 x) (V4 y) /\ (0 <= x < 2 ^ 32)%Z /\ (0 <= y < 2 ^ 32)%Z.

(** [st'] holds the rules of [st] followed by IPv4 rules only. *)
Definition adds_v4 (st st' : Z * thread) : Prop :=
  exists more : list rule,
    m_filter (snd st') = m_filter (snd st) ++ more /\ Forall v4_rule more.

(** Between [th] and [th'] nothing was logged, or [m] once. *)
Definition logs_at_most (m : log_msg) (th th' : thread) : Prop :=
  logged th' = logged th \/ logged th' = logged th ++ [m].

(** [FilterParserThread::IPfilter]. *)
Definition IPfilter (th : thread) : ip_filter := m_filter th.

(** [path] ends in the extension [ext], its letters in either case. *)
Definition has_extension (ext path : list byte) : Prop :=
  exists pre e : list byte, path = pre ++ e /\ map toLower e = ext.

(** A decimal field as [inet_pton] takes it: digits, at least one, and no
    leading zero before another digit. *)
Definition plain_octet (p : list byte) : bool :=
  forallb isdigit p
  && match p with
     | [] => false
     | [_] => true
     | c :: _ => negb (Byte.eqb c ch_zero)
     end.

(** [src] is [k] such fields joined by dots. *)
Definition dotted (k : nat) (src : list byte) : Prop :=
  exists parts : list (list byte),
    length parts = k /\ forallb plain_octet parts = true
    /\ src = join [ch_dot] parts.

(** A character of an IPv6 literal without a dotted part. *)
Definition hex_or_colon (c : byte) : bool :=
  match xdigit_val c with
  | Some _ => true
  | None => Byte.eqb c ch_colon
  end.

(** * Properties *)

(** ** Progress of the readers *)

Lemma readLine_shrinks (c : byte) (f : list byte) :
  length (snd (readLine (c :: f))) < length (c :: f).
Proof. line_shorter. Qed.

Lemma getline_shrinks (c : byte) (s name : list byte) (d : byte) :
  length (gl_rest (getlineInStream (c :: s) name d)) < length (c :: s).
Proof. getline_shorter. Qed.

Lemma skipn_length_le {A : Type} (n : nat) (l : list A) :
  length (skipn n l) <= length l.
Proof. rewrite length_skipn. lia. Qed.

(** ** The parsers on small files *)

Example parse_plain : parseIPAddress (bytes "1.9.106.186") = Some (V4 17394362).
Proof. reflexivity. Qed.

Example parse_padded : parseIPAddress (bytes " 001.009.106.186 ") = Some (V4 17394362).
Proof. reflexivity. Qed.

Example parse_v6 : parseIPAddress (bytes "::1") = Some (V6 1).
Proof. reflexivity. Qed.

Example parse_v6_full :
  parseIPAddress (bytes "2001:db8::ff00:42:8329")
  = Some (V6 42540766411282592856904265327123268393).
Proof. reflexivity. Qed.

Example parse_v6_mapped : parseIPAddress (bytes "::ffff:1.2.3.4") = Some (V6 281470698652420).
Proof. reflexivity. Qed.

Example parse_256 : parseIPAddress (bytes "256.1.1.1") = None.
Proof. reflexivity. Qed.

Example dat_two_lines :
  parseDATFilterFile
    (quiet (bytes "# list
1.2.3.4 - 1.2.3.9 , 100 , first
garbage,50
010.000.000.001-010.000.000.255
")) (bytes "f.dat") fresh
  = (2%Z, Thread [Rule (V4 16909060) (V4 16909065);
                  Rule (V4 167772161) (V4 167772415)] [] 4).
Proof. reflexivity. Qed.

Example p2b_v1_one :
  parseP2BFilterFile (quiet p2b_one_record) (bytes "f.p2b") fresh
  = (1%Z, Thread [Rule (V4 16909060) (V4 16909065)] [] 1).
Proof. reflexivity. Qed.

Example p2b_v3_two :
  parseP2BFilterFile
    (quiet (magic ++ [x03] ++ [x00; x00; x00; x02] ++ bytes "A" ++ [x00]
                  ++ bytes "B" ++ [x00]
                  ++ [x00; x00; x00; x02]
                  ++ [x00; x00; x00; x00; x01; x02; x03; x04; x01; x02; x03; x09]
                  ++ [x00; x00; x00; x01; x0a; x00; x00; x00; x0a; x00; x00; xff]))
    (bytes "f.P2B") fresh
  = (2%Z, Thread [Rule (V4 16909060) (V4 16909065);
                  Rule (V4 167772160) (V4 167772415)] [] 4).
Proof. reflexivity. Qed.

Example run_dat :
  run (quiet (bytes "1.2.3.4-1.2.3.9,50")) (bytes "ipfilter.DAT") fresh
  = RunResult (Some DAT) 1 (Thread [Rule (V4 16909060) (V4 16909065)] [] 2)
              [IPFilterParsed 1].
Proof. reflexivity. Qed.

(** ** [parseIPAddress] *)

Lemma strip_loop_map (octets : list (list byte)) :
  length octets = 4 -> strip_loop 4 0 octets = map strip_octet octets.
Proof.
  destruct octets as [|a [|b [|c [|d [|e l]]]]]; try discriminate.
  intros _. reflexivity.
Qed.







Lemma c_str_no_nul (l : list byte) : no_nul l = true -> c_str l = l.
Proof.
  unfold no_nul. induction l as [|c l IH]; simpl; [reflexivity|].
  intros H. apply andb_true_iff in H as [Hc Hl].
  destruct (Byte.eqb c ch_nul); [discriminate Hc|].
  rewrite (IH Hl). reflexivity.
Qed.

(** With four parts, the text handed to the address parser is the parts after
    the loop, joined by single dots. *)
Lemma normalizeIP_four (text : list byte) :
  length (split_skip_empty ch_dot (trimmed text)) = 4 ->
  normalizeIP text
  = join [ch_dot] (map strip_octet (split_skip_empty ch_dot (trimmed text))).
Proof.
  intros H. unfold normalizeIP. rewrite (strip_loop_map _ H), H.
  rewrite Nat.eqb_refl. reflexivity.
Qed.

Lemma normalizeIP_other (text : list byte) :
  length (split_skip_empty ch_dot (trimmed text)) <> 4 ->
  normalizeIP text = trimmed text.
Proof.
  intros H. unfold normalizeIP.
  destruct (Nat.eqb_spec (length (split_skip_empty ch_dot (trimmed text))) 4);
    [contradiction|reflexivity].
Qed.






(** Beyond three characters the loop removes two zeros only: a part such as
    "0001" keeps a leading zero and the address parser then rejects it. *)
Example strip_octet_long :
  strip_octet (bytes "0001") = bytes "01"
  /\ parseIPAddress (bytes "0001.2.3.4") = None.
Proof. split; reflexivity. Qed.

(** C10: the split on '.' drops empty segments, so only the non-empty segments
    of a text decide what is parsed: with exactly four of them they are
    rejoined with single dots, and "1..2.3.4", which the address parser itself
    rejects, gives the same address as "1.2.3.4". *)
Theorem parseIPAddress_skips_empty_segments :
  (forall text : list byte,
      split_skip_empty ch_dot (trimmed text)
      = filter (fun p => negb (isEmpty p)) (split ch_dot (trimmed text)))
  /\ (forall text : list byte,
         let parts := split_skip_empty ch_dot (trimmed text) in
         length parts = 4 ->
         parseIPAddress text
         = from_string (c_str (join [ch_dot] (map strip_octet parts))))
  /\ (forall text text' : list byte,
         split_skip_empty ch_dot (trimmed text)
         = split_skip_empty ch_dot (trimmed text') ->
         length (split_skip_empty ch_dot (trimmed text)) = 4 ->
         parseIPAddress text = parseIPAddress text')
  /\ split ch_dot (bytes "1..2.3.4") = [bytes "1"; []; bytes "2"; bytes "3"; bytes "4"]
  /\ normalizeIP (bytes "1..2.3.4") = bytes "1.2.3.4"
  /\ parseIPAddress (bytes "1..2.3.4") = Some (V4 16909060)
  /\ parseIPAddress (bytes "1.2.3.4") = Some (V4 16909060)
  /\ parseIPAddress (bytes ".1.2..3.4.") = Some (V4 16909060)
  /\ from_string (bytes "1..2.3.4") = None.
Proof.
  split; [reflexivity|].
  split.
  { intros text parts H. unfold parseIPAddress.
    rewrite (normalizeIP_four _ H). reflexivity. }
  split; [|repeat split; reflexivity].
  intros text text' Heq H4.
  unfold parseIPAddress.
  rewrite (normalizeIP_four _ H4).
  rewrite Heq in H4. rewrite (normalizeIP_four _ H4), Heq. reflexivity.
Qed.

Lemma parseIPAddress_skips_empty_segments_witness :
  parseIPAddress (bytes "10...0.0.1") = parseIPAddress (bytes "10.0.0.1").
Proof.
  destruct parseIPAddress_skips_empty_segments as (_ & _ & H & _).
  apply H; reflexivity.
Defined.

(** ** Text formats: the access level and the range field *)

Lemma split_not_nil (sep : byte) (l : list byte) : split sep l <> [].
Proof.
  destruct l as [|c l]; simpl; [discriminate|].
  destruct (Byte.eqb c sep); [discriminate|].
  destruct (split sep l); discriminate.
Qed.

Lemma split_single (sep : byte) (l p : list byte) : split sep l = [p] -> p = l.
Proof.
  revert p. induction l as [|c l IH]; intros p Hs; simpl in Hs.
  - congruence.
  - pose proof (split_not_nil sep l) as Hn.
    destruct (Byte.eqb c sep).
    + injection Hs as _ Hs. contradiction.
    + destruct (split sep l) as [|p' ps'] eqn:Hs'; [contradiction|].
      injection Hs as <- ->. f_equal. apply IH. reflexivity.
Qed.

Lemma after_field_range (field : list byte) : after_field field = range_field field.
Proof.
  unfold after_field, range_field.
  destruct (split ch_dash field) as [|a [|b [|c l]]]; try reflexivity.
  simpl.
  destruct (parseIPAddress a) as [[x|x]|]; [| |reflexivity];
    destruct (parseIPAddress b) as [[y|y]|]; reflexivity.
Qed.

Lemma range_field_not_access (field : list byte) :
  range_field field <> Skip AccessTooHigh.
Proof.
  unfold range_field.
  destruct (split ch_dash field) as [|a [|b [|c l]]]; try discriminate.
  destruct (parseIPAddress a) as [[x|x]|]; [| |discriminate];
    destruct (parseIPAddress b) as [[y|y]|]; discriminate.
Qed.

(** A DAT line that passes the empty and comment tests. *)
Lemma dat_line_fields (raw : list byte) :
  isEmpty (trimmed raw) = false ->
  is_comment (trimmed raw) = false ->
  dat_line raw
  = let partsList := split ch_comma (trimmed raw) in
    if (1 <? length partsList) && (127 <? toInt (trimmed (nth 1 partsList [])))%Z
    then Skip AccessTooHigh
    else range_field (hd [] partsList).
Proof.
  intros He Hc. unfold dat_line. rewrite He, Hc. cbv zeta.
  pose proof (split_not_nil ch_comma (trimmed raw)) as Hn.
  destruct (split ch_comma (trimmed raw)) as [|p ps] eqn:Hs; [contradiction|].
  rewrite <- after_field_range. reflexivity.
Qed.

Lemma p2p_line_fields (raw : list byte) :
  isEmpty (trimmed raw) = false ->
  is_comment (trimmed raw) = false ->
  p2p_line raw
  = let partsList := split ch_colon (trimmed raw) in
    if length partsList <? 2 then Skip TooFewFields
    else range_field (List.last partsList []).
Proof.
  intros He Hc. unfold p2p_line. rewrite He, Hc. cbv zeta.
  rewrite <- after_field_range. reflexivity.
Qed.

Lemma toInt_above (l : list byte) (k : Z) :
  (0 <= k)%Z ->
  ((k <? toInt l)%Z = true <-> exists n, toInt_ok l = Some n /\ (k < n)%Z).
Proof.
  intros Hk. unfold toInt. destruct (toInt_ok l) as [v|].
  - rewrite Z.ltb_lt. split.
    + intros H. exists v. auto.
    + intros (n & Hn & H). injection Hn as ->. exact H.
  - rewrite Z.ltb_lt. split; [lia|]. intros (n & Hn & _). discriminate Hn.
Qed.

(** C1: on a DAT line with at least two comma-separated fields the access
    check skips the line exactly when field 1, trimmed, converts to an integer
    above 127; a field that does not convert counts as 0 and the line goes on
    to the range field, as does a line without an access field.  The file
    "1.2.3.4-1.2.3.9,200" gives no rule; "1.2.3.4-1.2.3.9,50" and
    "1.2.3.4-1.2.3.9" give the one rule 1.2.3.4 - 1.2.3.9. *)
Theorem dat_access_level :
  (forall raw : list byte,
      let line := trimmed raw in
      let partsList := split ch_comma line in
      let access := trimmed (nth 1 partsList []) in
      isEmpty line = false ->
      is_comment line = false ->
      2 <= length partsList ->
      (dat_line raw = Skip AccessTooHigh
       <-> exists n, toInt_ok access = Some n /\ (127 < n)%Z)
      /\ (toInt_ok access = None ->
          toInt access = 0%Z /\ dat_line raw = range_field (hd [] partsList))
      /\ (dat_line raw <> Skip AccessTooHigh ->
          dat_line raw = range_field (hd [] partsList)))
  /\ (forall raw : list byte,
         let line := trimmed raw in
         isEmpty line = false ->
         is_comment line = false ->
         length (split ch_comma line) < 2 ->
         dat_line raw = range_field line)
  /\ (forall path : list byte,
         parseDATFilterFile (quiet (bytes "1.2.3.4-1.2.3.9,200")) path fresh
         = (0%Z, Thread [] [] 1)
         /\ parseDATFilterFile (quiet (bytes "1.2.3.4-1.2.3.9,50")) path fresh
            = (1%Z, Thread [Rule (V4 16909060) (V4 16909065)] [] 1)
         /\ parseDATFilterFile (quiet (bytes "1.2.3.4-1.2.3.9")) path fresh
            = (1%Z, Thread [Rule (V4 16909060) (V4 16909065)] [] 1)
         /\ parseIPAddress (bytes "1.2.3.4") = Some (V4 16909060)
         /\ parseIPAddress (bytes "1.2.3.9") = Some (V4 16909065)).
Proof.
  split; [|split].
  - intros raw line partsList access He Hc Hlen.
    pose proof (dat_line_fields raw He Hc) as Hd. cbv zeta in Hd.
    fold line in Hd. fold partsList in Hd. fold access in Hd.
    assert (Hl : (1 <? length partsList) = true) by (apply Nat.ltb_lt; lia).
    rewrite Hl in Hd. simpl in Hd.
    pose proof (toInt_above access 127 ltac:(lia)) as Habove.
    destruct (127 <? toInt access)%Z eqn:Hacc.
    + split; [|split].
      * rewrite Hd. split; [intros _; apply Habove; reflexivity|reflexivity].
      * intros Hnone. apply proj1 in Habove.
        destruct (Habove eq_refl) as (n & Hn & _). congruence.
      * intros Hne. rewrite Hd in Hne. contradiction.
    + split; [|split].
      * rewrite Hd. split.
        -- intros H. exfalso. exact (range_field_not_access _ H).
        -- intros H. apply Habove in H. discriminate H.
      * intros Hnone. split; [|exact Hd]. unfold toInt. rewrite Hnone. reflexivity.
      * intros _. exact Hd.
  - intros raw line He Hc Hlen.
    pose proof (dat_line_fields raw He Hc) as Hd. cbv zeta in Hd.
    fold line in Hd.
    assert (Hl : (1 <? length (split ch_comma line)) = false)
      by (apply Nat.ltb_ge; lia).
    rewrite Hl in Hd. simpl in Hd. rewrite Hd.
    pose proof (split_not_nil ch_comma line) as Hn.
    destruct (split ch_comma line) as [|p [|q ps]] eqn:Hs;
      [contradiction| |simpl in Hlen; lia].
    simpl. f_equal. exact (split_single _ _ _ Hs).
  - intros path. repeat split; reflexivity.
Qed.

Lemma dat_access_level_witness :
  dat_line (bytes " 10.0.0.1-10.0.0.9 , 128 , lan ") = Skip AccessTooHigh
  /\ dat_line (bytes "10.0.0.1-10.0.0.9") = AddRule (V4 167772161) (V4 167772169).
Proof.
  destruct dat_access_level as (H2 & H1 & _). split.
  - apply (H2 (bytes " 10.0.0.1-10.0.0.9 , 128 , lan ")); try reflexivity.
    + simpl. lia.
    + exists 128%Z. split; [reflexivity|lia].
  - rewrite (H1 (bytes "10.0.0.1-10.0.0.9")); try reflexivity. simpl. lia.
Defined.

Example dat_access_unparsable :
  dat_line (bytes "10.0.0.1-10.0.0.9,high") = AddRule (V4 167772161) (V4 167772169)
  /\ dat_line (bytes "10.0.0.1-10.0.0.9,127") = AddRule (V4 167772161) (V4 167772169)
  /\ dat_line (bytes "10.0.0.1-10.0.0.9,99999999999") = AddRule (V4 167772161) (V4 167772169).
Proof. repeat split; reflexivity. Qed.

(** A DAT line that reaches its range field handles it as described. *)
Lemma dat_line_range (raw : list byte) :
  isEmpty (trimmed raw) = false ->
  is_comment (trimmed raw) = false ->
  dat_line raw <> Skip AccessTooHigh ->
  dat_line raw = range_field (hd [] (split ch_comma (trimmed raw))).
Proof.
  intros He Hc Hne.
  pose proof (dat_line_fields raw He Hc) as Hd. cbv zeta in Hd.
  destruct ((1 <? length (split ch_comma (trimmed raw)))
            && (127 <? toInt (trimmed (nth 1 (split ch_comma (trimmed raw)) [])))%Z).
  - contradiction.
  - exact Hd.
Qed.

(** C8: a P2P line that is neither empty nor a comment and has at least two
    colon-separated fields is decided by its last field alone, split on '-'
    into exactly two parts, and the result is the one the DAT parser gives for
    the same text as its range field; "sometag:1.2.3.4-1.2.3.9" gives the rule
    that the DAT file "1.2.3.4-1.2.3.9" gives. *)
Theorem p2p_range_as_dat :
  (forall raw : list byte,
      let partsList := split ch_colon (trimmed raw) in
      isEmpty (trimmed raw) = false ->
      is_comment (trimmed raw) = false ->
      2 <= length partsList ->
      p2p_line raw = range_field (List.last partsList [])
      /\ (length (split ch_dash (List.last partsList [])) <> 2 ->
          p2p_line raw = Skip NotTwoIPs)
      /\ forall raw' : list byte,
          isEmpty (trimmed raw') = false ->
          is_comment (trimmed raw') = false ->
          dat_line raw' <> Skip AccessTooHigh ->
          hd [] (split ch_comma (trimmed raw')) = List.last partsList [] ->
          p2p_line raw = dat_line raw'
          /\ forall st : Z * thread,
              apply_line (p2p_line raw) st = apply_line (dat_line raw') st)
  /\ (forall path path' : list byte,
         parseP2PFilterFile (quiet (bytes "sometag:1.2.3.4-1.2.3.9")) path fresh
         = (1%Z, Thread [Rule (V4 16909060) (V4 16909065)] [] 1)
         /\ parseP2PFilterFile (quiet (bytes "sometag:1.2.3.4-1.2.3.9")) path fresh
            = parseDATFilterFile (quiet (bytes "1.2.3.4-1.2.3.9")) path' fresh).
Proof.
  split.
  - intros raw partsList He Hc Hlen.
    pose proof (p2p_line_fields raw He Hc) as Hp. cbv zeta in Hp.
    fold partsList in Hp.
    assert (Hl : (length partsList <? 2) = false) by (apply Nat.ltb_ge; lia).
    rewrite Hl in Hp.
    split; [exact Hp|]. split.
    + intros Hn. rewrite Hp. unfold range_field.
      destruct (split ch_dash (List.last partsList [])) as [|a [|b [|c l]]];
        try reflexivity.
      simpl in Hn. contradiction.
    + intros raw' He' Hc' Hacc Hfield.
      assert (Heq : p2p_line raw = dat_line raw').
      { rewrite Hp, (dat_line_range raw' He' Hc' Hacc), Hfield. reflexivity. }
      split; [exact Heq|]. intros st. rewrite Heq. reflexivity.
  - intros path path'. split; reflexivity.
Qed.

Lemma p2p_range_as_dat_witness :
  p2p_line (bytes "lan:local:10.0.0.1 - 10.0.0.9")
  = dat_line (bytes "10.0.0.1 - 10.0.0.9, 100 , lan")
  /\ p2p_line (bytes "lan:local:10.0.0.1 - 10.0.0.9")
     = AddRule (V4 167772161) (V4 167772169).
Proof.
  destruct p2p_range_as_dat as (H & _).
  destruct (H (bytes "lan:local:10.0.0.1 - 10.0.0.9") eq_refl eq_refl
              ltac:(simpl; lia)) as (Hr & _ & Hd).
  split.
  - destruct (Hd (bytes "10.0.0.1 - 10.0.0.9, 100 , lan") eq_refl eq_refl
                ltac:(vm_compute; discriminate) eq_refl) as [Heq _].
    exact Heq.
  - rewrite Hr. reflexivity.
Defined.

(** The last field is what follows the last colon, so an IPv6 range cannot be
    written in this format. *)
Example p2p_ipv6 :
  p2p_line (bytes "tag:2001:db8::1-2001:db8::9") = Skip NotTwoIPs
  /\ dat_line (bytes "2001:db8::1-2001:db8::9")
     = AddRule (V6 42540766411282592856903984951653826561)
               (V6 42540766411282592856903984951653826569).
Proof. split; reflexivity. Qed.

(** ** Files that are missing or cannot be opened *)

Lemma parse_without_file (E : env) (path : list byte) (th : thread) (fmt : format) :
  fs E path = Missing \/ fs E path = Unreadable ->
  let r := match fmt with
           | P2P => parseP2PFilterFile E path th
           | P2B => parseP2BFilterFile E path th
           | DAT => parseDATFilterFile E path th
           end in
  fst r = 0%Z
  /\ m_filter (snd r) = m_filter th
  /\ polls (snd r) = polls th
  /\ logged (snd r)
     = match fs E path with
       | Unreadable => logged th ++ [IOError]
       | _ => logged th
       end.
Proof.
  intros [H|H]; destruct fmt; simpl;
    unfold parseP2PFilterFile, parseP2BFilterFile, parseDATFilterFile;
    rewrite H; simpl; auto.
Qed.

(** C3, as the code has it: a file that exists but cannot be opened is reported
    as an I/O error; a missing file is not reported at all.  In both cases the
    run ends with 0 rules and an untouched filter and, when no cancellation is
    seen, emits [IPFilterParsed 0] - and nothing else unless delivering that
    signal fails. *)
Theorem open_failure_outcome (E : env) (path : list byte) (th : thread) (fmt : format) :
  dispatch path = Some fmt ->
  fs E path = Missing \/ fs E path = Unreadable ->
  let r := run E path th in
  (fs E path = Unreadable -> logged (after r) = logged th ++ [IOError])
  /\ (fs E path = Missing -> logged (after r) = logged th)
  /\ count r = 0%Z
  /\ m_filter (after r) = m_filter th
  /\ (flag_at E (polls th) = false ->
      signals r = IPFilterParsed 0 :: (if emit_throws E then [IPFilterError] else []))
  /\ (flag_at E (polls th) = false -> emit_throws E = false ->
      signals r = [IPFilterParsed 0]).
Proof.
  intros Hd Hfs r.
  pose proof (parse_without_file E path th fmt Hfs) as Hp. cbv zeta in Hp.
  subst r. unfold run. rewrite Hd.
  destruct fmt;
    match type of Hp with
    | context [fst ?p] => destruct p as [rc th1]
    end;
    simpl in Hp; destruct Hp as (-> & Hf & Hk & Hl);
    unfold read_abort; rewrite Hk;
    (destruct (flag_at E (polls th)); simpl;
     (split; [intros Hu; rewrite Hu in Hl; exact Hl|]);
     (split; [intros Hm; rewrite Hm in Hl; exact Hl|]);
     (split; [reflexivity|]);
     (split; [exact Hf|]);
     split; intros; try discriminate; try reflexivity;
     match goal with H : emit_throws E = false |- _ => rewrite H end; reflexivity).
Qed.

Lemma open_failure_outcome_witness :
  let E := Env (fun _ => Unreadable) None false true (fun _ => x00) in
  let r := run E (bytes "ipfilter.p2b") fresh in
  logged (after r) = [IOError] /\ count r = 0%Z /\ signals r = [IPFilterParsed 0].
Proof.
  intros E r.
  destruct (open_failure_outcome E (bytes "ipfilter.p2b") fresh P2B
              eq_refl (or_intror eq_refl)) as (Hu & _ & Hc & _ & _ & Hs).
  split; [exact (Hu eq_refl)|]. split; [exact Hc|]. exact (Hs eq_refl eq_refl).
Defined.

(** C3 as stated fails: nothing is reported for a missing file. *)
Lemma missing_file_not_reported :
  let E := Env (fun _ => Missing) None false true (fun _ => x00) in
  let r := run E (bytes "ipfilter.dat") fresh in
  fs E (bytes "ipfilter.dat") = Missing
  /\ ~ In IOError (logged (after r))
  /\ logged (after r) = []
  /\ signals r = [IPFilterParsed 0].
Proof.
  cbv zeta. split; [reflexivity|]. split; [|split; reflexivity].
  simpl. intros [].
Qed.

(** ** Dispatch on the extension *)

Lemma dispatch_none (path : list byte) :
  endsWith_ci (bytes ".p2p") path = false ->
  endsWith_ci (bytes ".p2b") path = false ->
  endsWith_ci (bytes ".dat") path = false ->
  dispatch path = None.
Proof. intros H1 H2 H3. unfold dispatch. rewrite H1, H2, H3. reflexivity. Qed.

(** C9: when the path ends in none of ".p2p", ".p2b", ".dat" (letters of
    either case) no parser is called, whatever is on disk: the rule count is 0,
    the new filter stays empty, nothing is logged, and the run, unless it sees
    a cancellation, emits [IPFilterParsed 0]. *)
Theorem unknown_extension (E : env) (path : list byte) (th : thread) :
  endsWith_ci (bytes ".p2p") path = false ->
  endsWith_ci (bytes ".p2b") path = false ->
  endsWith_ci (bytes ".dat") path = false ->
  let r := processFilterFile E path th in
  parser r = None
  /\ count r = 0%Z
  /\ m_filter (after r) = []
  /\ logged (after r) = logged th
  /\ (flag_at E (polls th) = false ->
      signals r = IPFilterParsed 0 :: (if emit_throws E then [IPFilterError] else []))
  /\ (abort_at E = None -> emit_throws E = false -> signals r = [IPFilterParsed 0])
  /\ m_filter (after (run E path th)) = m_filter th.
Proof.
  intros H1 H2 H3 r. subst r.
  unfold processFilterFile, run. rewrite (dispatch_none path H1 H2 H3).
  unfold read_abort, flag_at. simpl.
  destruct (abort_at E) as [a|]; simpl.
  - destruct (a <=? polls th); simpl; repeat split; try reflexivity;
      intros; discriminate.
  - repeat split; try reflexivity. intros _ ->. reflexivity.
Qed.

Lemma unknown_extension_witness :
  let r := processFilterFile (quiet (bytes "1.2.3.4-1.2.3.9")) (bytes "list.txt")
                             (Thread [Rule (V4 1) (V4 2)] [] 0) in
  parser r = None /\ m_filter (after r) = [] /\ signals r = [IPFilterParsed 0].
Proof.
  intros r.
  destruct (unknown_extension (quiet (bytes "1.2.3.4-1.2.3.9")) (bytes "list.txt")
              (Thread [Rule (V4 1) (V4 2)] [] 0) eq_refl eq_refl eq_refl)
    as (Hp & _ & Hf & _ & _ & Hs & _).
  split; [exact Hp|]. split; [exact Hf|]. exact (Hs eq_refl eq_refl).
Defined.

Example dispatch_cases :
  dispatch (bytes "a.P2p") = Some P2P
  /\ dispatch (bytes "A.p2B") = Some P2B
  /\ dispatch (bytes "ipfilter.DaT") = Some DAT
  /\ dispatch (bytes "ipfilter.dat.bak") = None
  /\ dispatch (bytes "dat") = None.
Proof. repeat split; reflexivity. Qed.

(** ** The P2B header *)

Lemma bytes_eqb_eq (a b : list byte) : bytes_eqb a b = true <-> a = b.
Proof.
  revert b. induction a as [|x a IH]; intros [|y b]; simpl;
    try (split; [discriminate|discriminate]); try tauto.
  rewrite andb_true_iff, IH. split.
  - intros [Hxy ->]. apply Byte.byte_dec_bl in Hxy. subst. reflexivity.
  - intros H. injection H as -> ->. split; [apply Byte.byte_dec_lb|]; reflexivity.
Qed.

Lemma uninit_length (E : env) (off n : nat) : length (uninit E off n) = n.
Proof. unfold uninit. rewrite length_map, length_seq. reflexivity. Qed.

Lemma skipn_nil_of_short {A : Type} (n : nat) (l : list A) :
  length l <= n -> skipn n l = [].
Proof. intros H. apply skipn_all2. exact H. Qed.

(** C5: unless the file starts with the seven bytes FF FF FF FF 50 32 42 and
    has a version byte after them, the parse is a fatal format error with 0
    rules, an untouched filter and nothing read beyond the seven bytes; with a
    complete header and a version byte other than 1, 2 and 3 it is a fatal
    format error with 0 rules and nothing read beyond the header. *)
Theorem p2b_header (E : env) (th : thread) :
  (forall content : list byte,
      firstn 7 content <> magic \/ length content < 8 ->
      parseP2BStream E content th
      = ((0%Z, addMessage ParsingError th), skipn 7 content))
  /\ (forall (version : byte) (tail : list byte),
         code version <> 1%Z -> code version <> 2%Z -> code version <> 3%Z ->
         parseP2BStream E (magic ++ version :: tail) th
         = ((0%Z, addMessage ParsingError th), tail))
  /\ (forall (path content : list byte),
         fs E path = Readable content ->
         (firstn 7 content <> magic \/ length content < 8
          \/ exists version tail,
              content = magic ++ version :: tail
              /\ code version <> 1%Z /\ code version <> 2%Z /\ code version <> 3%Z) ->
         parseP2BFilterFile E path th
         = (0%Z, Thread (m_filter th) (logged th ++ [ParsingError]) (polls th))).
Proof.
  assert (Hhead : forall content : list byte,
             firstn 7 content <> magic \/ length content < 8 ->
             parseP2BStream E content th
             = ((0%Z, addMessage ParsingError th), skipn 7 content)).
  { intros content H. unfold parseP2BStream. cbv zeta.
    destruct (le_lt_dec 8 (length content)) as [Hlong|Hshort].
    - destruct H as [Hmagic|Hlen]; [|lia].
      assert (Hmem : mem (readRawData 7 (uninit E 0 7) content) = firstn 7 content).
      { unfold readRawData. cbn [mem].
        rewrite length_firstn, Nat.min_l by lia.
        rewrite skipn_nil_of_short by (rewrite uninit_length; lia).
        apply app_nil_r. }
      assert (Hdiff : memcmp_differs (mem (readRawData 7 (uninit E 0 7) content)) magic 7
                      = true).
      { rewrite Hmem. unfold memcmp_differs.
        destruct (bytes_eqb (firstn 7 (firstn 7 content)) (firstn 7 magic)) eqn:Heq;
          [|reflexivity].
        apply bytes_eqb_eq in Heq. rewrite firstn_firstn in Heq.
        simpl Nat.min in Heq. contradiction. }
      rewrite Hdiff, orb_true_r. reflexivity.
    - assert (Hrest : skipn 7 content = [])
        by (apply skipn_nil_of_short; lia).
      cbn [readRawData rest nread]. rewrite Hrest.
      destruct ((Z.of_nat (length (firstn 7 content)) =? 0)%Z
                || memcmp_differs (mem (readRawData 7 (uninit E 0 7) content)) magic 7);
        reflexivity. }
  assert (Hver : forall (version : byte) (tail : list byte),
             code version <> 1%Z -> code version <> 2%Z -> code version <> 3%Z ->
             parseP2BStream E (magic ++ version :: tail) th
             = ((0%Z, addMessage ParsingError th), tail)).
  { intros version tail H1 H2 H3. unfold parseP2BStream. cbv zeta.
    cbn [magic app readRawData firstn skipn length nread mem rest uninit seq map
         Z.of_nat Pos.of_succ_nat Pos.succ Z.eqb orb hd
         memcmp_differs bytes_eqb Byte.eqb andb negb].
    replace (Byte.eqb xff xff) with true by reflexivity.
    replace (Byte.eqb x50 x50) with true by reflexivity.
    replace (Byte.eqb x32 x32) with true by reflexivity.
    replace (Byte.eqb x42 x42) with true by reflexivity.
    cbn [andb negb orb].
    apply Z.eqb_neq in H1, H2, H3. rewrite H1, H2, H3. reflexivity. }
  split; [exact Hhead|]. split; [exact Hver|].
  intros path content Hfs H.
  unfold parseP2BFilterFile. rewrite Hfs.
  destruct H as [H|[H|(version & tail & -> & H1 & H2 & H3)]].
  - rewrite (Hhead content (or_introl H)). reflexivity.
  - rewrite (Hhead content (or_intror H)). reflexivity.
  - rewrite (Hver version tail H1 H2 H3). reflexivity.
Qed.

Lemma p2b_header_witness :
  parseP2BStream (quiet []) (bytes "P2B file") fresh
  = ((0%Z, Thread [] [ParsingError] 0), [x65])
  /\ parseP2BStream (quiet []) (magic ++ [x09; x41; x00]) fresh
     = ((0%Z, Thread [] [ParsingError] 0), [x41; x00]).
Proof.
  destruct (p2b_header (quiet []) fresh) as (Hh & Hv & _). split.
  - rewrite (Hh (bytes "P2B file")); [reflexivity|].
    left. discriminate.
  - change (magic ++ [x09; x41; x00]) with (magic ++ x09 :: [x41; x00]).
    rewrite Hv; [reflexivity| | |]; discriminate.
Defined.

(** A header cut short goes the same way whatever the uninitialised tail of
    [buf] holds, here even the missing magic bytes. *)
Example p2b_header_short_read :
  parseP2BStream (Env (fun _ => Missing) None false true
                      (fun k => nth k magic x00))
                 [xff; xff; xff] fresh
  = ((0%Z, Thread [] [ParsingError] 0), []).
Proof. reflexivity. Qed.

(** ** Byte order *)

Lemma code_range (b : byte) : (0 <= code b < 256)%Z.
Proof. destruct b; vm_compute; split; (discriminate || reflexivity). Qed.

Lemma lor_disjoint (hi lo k : Z) :
  (0 <= k)%Z -> (0 <= lo < 2 ^ k)%Z ->
  Z.lor (hi * 2 ^ k) lo = (hi * 2 ^ k + lo)%Z.
Proof.
  intros Hk Hlo.
  assert (Hland : Z.land (hi * 2 ^ k) lo = 0%Z).
  { apply Z.bits_inj'. intros n Hn.
    rewrite Z.land_spec, Z.bits_0, <- Z.shiftl_mul_pow2 by lia.
    destruct (Z.lt_ge_cases n k) as [Hlt|Hge].
    - rewrite Z.shiftl_spec_low by lia. reflexivity.
    - destruct (Z.eq_dec lo 0) as [->|Hnz].
      + rewrite Z.bits_0. apply andb_false_r.
      + rewrite (Z.bits_above_log2 lo n); [apply andb_false_r|lia|].
        apply Z.lt_le_trans with k; [|lia].
        apply Z.log2_lt_pow2; lia. }
  rewrite <- Z.lxor_lor by exact Hland.
  symmetry. apply Z.add_nocarry_lxor. exact Hland.
Qed.

Lemma bswap32_bytes (a b c d : Z) :
  (0 <= a < 256)%Z -> (0 <= b < 256)%Z -> (0 <= c < 256)%Z -> (0 <= d < 256)%Z ->
  bswap32 (((d * 256 + c) * 256 + b) * 256 + a) = (((a * 256 + b) * 256 + c) * 256 + d)%Z.
Proof.
  intros Ha Hb Hc Hd. unfold bswap32.
  set (x := (((d * 256 + c) * 256 + b) * 256 + a)%Z).
  change 255%Z with (Z.ones 8).
  rewrite !Z.land_ones, !Z.shiftr_div_pow2, !Z.shiftl_mul_pow2 by lia.
  change (2 ^ 8)%Z with 256%Z. change (2 ^ 16)%Z with 65536%Z.
  change (2 ^ 24)%Z with 16777216%Z.
  assert (H0 : (x mod 256 = a)%Z) by (subst x; Z.div_mod_to_equations; lia).
  assert (H1 : ((x / 256) mod 256 = b)%Z) by (subst x; Z.div_mod_to_equations; lia).
  assert (H2 : ((x / 65536) mod 256 = c)%Z) by (subst x; Z.div_mod_to_equations; lia).
  assert (H3 : ((x / 16777216) mod 256 = d)%Z) by (subst x; Z.div_mod_to_equations; lia).
  rewrite H0, H1, H2, H3.
  change 16777216%Z with (2 ^ 24)%Z. change 65536%Z with (2 ^ 16)%Z.
  change 256%Z with (2 ^ 8)%Z at 1.
  rewrite (lor_disjoint a (b * 2 ^ 16) 24) by lia.
  rewrite (lor_disjoint c d 8) by lia.
  replace (a * 2 ^ 24 + b * 2 ^ 16)%Z with ((a * 2 ^ 8 + b) * 2 ^ 16)%Z by lia.
  rewrite (lor_disjoint (a * 2 ^ 8 + b) (c * 2 ^ 8 + d) 16) by lia.
  lia.
Qed.

(** [ntohl] of a value read into an [unsigned int] is the big-endian value of
    the four bytes read, on a host of either byte order. *)
Lemma ntohl_load32 (E : env) (m : list byte) :
  length m = 4 -> ntohl E (load32 E m) = be_value (map code m).
Proof.
  destruct m as [|a [|b [|c [|d [|e m]]]]]; try discriminate. intros _.
  unfold ntohl, load32. destruct (little_endian E); [|reflexivity].
  cbn [map rev app be_value fold_left].
  change (0 * 256 + code d)%Z with (code d).
  change (0 * 256 + code a)%Z with (code a).
  apply bswap32_bytes; apply code_range.
Qed.

(** ** P2B records *)

Lemma flag_at_none (E : env) (k : nat) : abort_at E = None -> flag_at E k = false.
Proof. intros H. unfold flag_at. rewrite H. reflexivity. Qed.

Lemma header_accepted (E : env) (version : byte) (tail : list byte) :
  readRawData 7 (uninit E 0 7) (magic ++ version :: tail)
  = RawRead 7 magic (version :: tail)
  /\ readRawData 1 (uninit E 7 1) (version :: tail) = RawRead 1 [version] tail.
Proof. split; reflexivity. Qed.

(** After a good header with version 1 or 2 the record loop runs on the rest
    of the file. *)
Lemma p2b_version_12 (E : env) (version : byte) (tail : list byte) (th : thread) :
  code version = 1%Z \/ code version = 2%Z ->
  parseP2BStream E (magic ++ version :: tail) th
  = v12_loop E tail [] (uninit E 8 4) (uninit E 12 4) (0%Z, th).
Proof.
  intros Hv. unfold parseP2BStream. cbv zeta.
  destruct (header_accepted E version tail) as [H1 H2].
  rewrite H1. cbn [nread mem rest]. rewrite H2. cbn [nread mem rest hd].
  change (memcmp_differs magic magic 7) with false.
  cbn [Z.eqb orb].
  destruct Hv as [-> | ->]; reflexivity.
Qed.

(** After a good header with version 3 the two counted loops run. *)
Lemma p2b_version_3 (E : env) (tail : list byte) (th : thread) :
  parseP2BStream E (magic ++ x03 :: tail) th
  = let nc := readRawData 4 (uninit E 16 4) tail in
    if (nread nc =? 0)%Z then p2b_fatal (0%Z, th) (rest nc)
    else
      match names_loop E 0 (ntohl E (load32 E (mem nc))) (rest nc) (0%Z, th) with
      | Return r => r
      | Fallthrough (st, s) =>
          let rc := readRawData 4 (uninit E 20 4) s in
          if (nread rc =? 0)%Z then p2b_fatal st (rest rc)
          else
            match ranges_loop E 0 (ntohl E (load32 E (mem rc))) (rest rc)
                              (uninit E 24 4) (uninit E 8 4) (uninit E 12 4) st with
            | Return r => r
            | Fallthrough r => r
            end
      end.
Proof.
  unfold parseP2BStream. cbv zeta.
  destruct (header_accepted E x03 tail) as [H1 H2].
  rewrite H1. cbn [nread mem rest]. rewrite H2. cbn [nread mem rest hd].
  reflexivity.
Qed.

Lemma names_loop_body (E : env) (i namecount : Z) (s : list byte) (st : Z * thread) :
  names_loop E i namecount s st
  = if (i <? namecount)%Z then
      match s with
      | [] => Return (p2b_fatal st [])
      | c :: s' =>
          let g := getlineInStream (c :: s') [] ch_nul in
          if (gl_total g =? 0)%Z then Return (p2b_fatal st (gl_rest g))
          else
            let (flag, th) := read_abort E (snd st) in
            if flag then Return ((fst st, th), gl_rest g)
            else names_loop E (i + 1)%Z namecount (gl_rest g) (fst st, th)
      end
    else Fallthrough (st, s).
Proof.
  rewrite names_loop_equation_1.
  destruct (i <? namecount)%Z; simp names_loop; [|reflexivity].
  destruct s; simp names_loop; reflexivity.
Qed.

Lemma ranges_loop_body (E : env) (i rangecount : Z) (s name start_ end_ : list byte)
      (st : Z * thread) :
  ranges_loop E i rangecount s name start_ end_ st
  = if (i <? rangecount)%Z then
      match s with
      | [] => Return (p2b_fatal st [])
      | c :: s' =>
          let r0 := readRawData 4 name (c :: s') in
          if (nread r0 =? 0)%Z then Return (p2b_fatal st (rest r0))
          else
            let r1 := readRawData 4 start_ (rest r0) in
            if (nread r1 =? 0)%Z then Return (p2b_fatal st (rest r1))
            else
              let r2 := readRawData 4 end_ (rest r1) in
              if (nread r2 =? 0)%Z then Return (p2b_fatal st (rest r2))
              else
                let st' :=
                  try_add_rule (address_v4 (ntohl E (load32 E (mem r1))))
                               (address_v4 (ntohl E (load32 E (mem r2)))) st in
                let (flag, th) := read_abort E (snd st') in
                if flag then Return ((fst st', th), rest r2)
                else ranges_loop E (i + 1)%Z rangecount (rest r2)
                                 (mem r0) (mem r1) (mem r2) (fst st', th)
      end
    else Fallthrough (st, s).
Proof.
  rewrite ranges_loop_equation_1.
  destruct (i <? rangecount)%Z; simp ranges_loop; [|reflexivity].
  destruct s; simp ranges_loop; reflexivity.
Qed.

Lemma try_add_rule_v4 (x y ruleCount : Z) (th : thread) :
  try_add_rule (address_v4 x) (address_v4 y) (ruleCount, th)
  = ((ruleCount + 1)%Z, set_filter (m_filter th ++ [Rule (V4 x) (V4 y)]) th).
Proof. reflexivity. Qed.

(** [getlineInStream] on a name followed by its terminator. *)
Lemma getline_name (name acc s : list byte) (t : Z) :
  no_nul name = true ->
  getline_from t (name ++ ch_nul :: s) acc ch_nul
  = ((t + Z.of_nat (length name) + 1)%Z, acc ++ name, s).
Proof.
  revert acc t. induction name as [|c name IH]; intros acc t Hn.
  - simpl. rewrite app_nil_r. f_equal. f_equal. lia.
  - unfold no_nul in Hn. simpl in Hn. apply andb_true_iff in Hn as [Hc Hn].
    cbn [app getline_from]. rewrite Hc.
    rewrite (IH (acc ++ [c]) (t + 1)%Z Hn), <- app_assoc.
    cbn [app length]. f_equal. f_equal. lia.
Qed.

Lemma v12_loop_nonempty (E : env) (s name start_ end_ : list byte) (st : Z * thread) :
  s <> [] ->
  v12_loop E s name start_ end_ st
  = let g := getlineInStream s name ch_nul in
    if (gl_total g =? 0)%Z then (st, gl_rest g)
    else
      let (flag, th) := read_abort E (snd st) in
      if flag then ((fst st, th), gl_rest g)
      else
        let r1 := readRawData 4 start_ (gl_rest g) in
        if (nread r1 =? 0)%Z then p2b_fatal (fst st, th) (rest r1)
        else
          let r2 := readRawData 4 end_ (rest r1) in
          if (nread r2 =? 0)%Z then p2b_fatal (fst st, th) (rest r2)
          else
            v12_loop E (rest r2) (gl_name g) (mem r1) (mem r2)
                     (try_add_rule (address_v4 (ntohl E (load32 E (mem r1))))
                                   (address_v4 (ntohl E (load32 E (mem r2))))
                                   (fst st, th)).
Proof.
  destruct s as [|c s']; [contradiction|]. intros _.
  rewrite v12_loop_equation_2. reflexivity.
Qed.

(** A read returns 0 only when nothing is left (or nothing is asked for). *)
Lemma nread_zero (len : nat) (buf s : list byte) :
  (nread (readRawData len buf s) =? 0)%Z = (Nat.min len (length s) =? 0).
Proof.
  unfold readRawData. cbn [nread]. rewrite length_firstn.
  destruct (Nat.min len (length s)); reflexivity.
Qed.

Section Uncancelled.

Variable E : env.
Hypothesis never : abort_at E = None.

(** Versions 1 and 2, a name with at most four bytes after it: the parse ends
    with the fatal message and the rules it had. *)
Lemma v12_loop_short (name acc s start_ end_ : list byte) (st : Z * thread) :
  no_nul name = true ->
  length s <= 4 ->
  v12_loop E (name ++ ch_nul :: s) acc start_ end_ st
  = p2b_fatal (fst st, polled (snd st)) [].
Proof.
  intros Hn Hlen.
  rewrite v12_loop_nonempty by (destruct name; discriminate). cbv zeta.
  unfold getlineInStream. rewrite (getline_name name acc s 0 Hn).
  cbn [gl_total gl_rest gl_name fst snd].
  replace (0 + Z.of_nat (length name) + 1 =? 0)%Z with false
    by (symmetry; apply Z.eqb_neq; lia).
  unfold read_abort. rewrite (flag_at_none E _ never). fold (polled (snd st)).
  rewrite !nread_zero. cbn [readRawData rest].
  rewrite (skipn_nil_of_short 4 s Hlen).
  destruct s as [|c s]; [reflexivity|]. cbn [length Nat.min Nat.eqb]. reflexivity.
Qed.

(** Versions 1 and 2, a name with at least five bytes after it: a rule is
    added and the loop goes on eight bytes further on - also when fewer than
    eight bytes were there, in which case [end] keeps some of its old bytes. *)
Lemma v12_loop_step (name acc s start_ end_ : list byte) (st : Z * thread) :
  no_nul name = true ->
  5 <= length s ->
  v12_loop E (name ++ ch_nul :: s) acc start_ end_ st
  = let start' := mem (readRawData 4 start_ s) in
    let end' := mem (readRawData 4 end_ (skipn 4 s)) in
    v12_loop E (skipn 8 s) (acc ++ name) start' end'
             (try_add_rule (address_v4 (ntohl E (load32 E start')))
                           (address_v4 (ntohl E (load32 E end')))
                           (fst st, polled (snd st))).
Proof.
  intros Hn Hlen.
  rewrite v12_loop_nonempty by (destruct name; discriminate). cbv zeta.
  unfold getlineInStream. rewrite (getline_name name acc s 0 Hn).
  cbn [gl_total gl_rest gl_name fst snd].
  replace (0 + Z.of_nat (length name) + 1 =? 0)%Z with false
    by (symmetry; apply Z.eqb_neq; lia).
  unfold read_abort. rewrite (flag_at_none E _ never). fold (polled (snd st)).
  rewrite !nread_zero. cbn [readRawData rest mem].
  rewrite length_skipn.
  replace (Nat.min 4 (length s) =? 0) with false
    by (symmetry; apply Nat.eqb_neq; lia).
  replace (Nat.min 4 (length s - 4) =? 0) with false
    by (symmetry; apply Nat.eqb_neq; lia).
  rewrite skipn_skipn. reflexivity.
Qed.

(** Version 3, a range record with at most eight bytes left. *)
Lemma ranges_loop_short (i rangecount : Z) (s name start_ end_ : list byte)
      (st : Z * thread) :
  (i < rangecount)%Z ->
  length s <= 8 ->
  ranges_loop E i rangecount s name start_ end_ st = Return (p2b_fatal st []).
Proof.
  intros Hi Hlen. rewrite ranges_loop_body.
  apply Z.ltb_lt in Hi. rewrite Hi.
  destruct s as [|c s']; [reflexivity|]. cbv zeta.
  rewrite !nread_zero. cbn [readRawData rest].
  rewrite !length_skipn, skipn_skipn.
  rewrite (skipn_nil_of_short (4 + 4) (c :: s')) by (cbn [length] in *; lia).
  replace (Nat.min 4 (length (c :: s')) =? 0) with false
    by (symmetry; apply Nat.eqb_neq; cbn [length]; lia).
  replace (Nat.min 4 (length (c :: s') - 4 - 4) =? 0) with true
    by (symmetry; apply Nat.eqb_eq; cbn [length] in *; lia).
  destruct (Nat.min 4 (length (c :: s') - 4) =? 0); reflexivity.
Qed.

(** Version 3, a range record with at least nine bytes left: a rule is added,
    whether or not the twelve bytes of the record were all there. *)
Lemma ranges_loop_step (i rangecount : Z) (s name start_ end_ : list byte)
      (st : Z * thread) :
  (i < rangecount)%Z ->
  9 <= length s ->
  ranges_loop E i rangecount s name start_ end_ st
  = let name' := mem (readRawData 4 name s) in
    let start' := mem (readRawData 4 start_ (skipn 4 s)) in
    let end' := mem (readRawData 4 end_ (skipn 8 s)) in
    let st' := try_add_rule (address_v4 (ntohl E (load32 E start')))
                            (address_v4 (ntohl E (load32 E end'))) st in
    ranges_loop E (i + 1)%Z rangecount (skipn 12 s) name' start' end'
                (fst st', polled (snd st')).
Proof.
  intros Hi Hlen. rewrite ranges_loop_body.
  apply Z.ltb_lt in Hi. rewrite Hi.
  destruct s as [|c s']; [cbn [length] in Hlen; lia|]. cbv zeta.
  rewrite !nread_zero. cbn [readRawData rest mem].
  rewrite !length_skipn, !skipn_skipn.
  replace (Nat.min 4 (length (c :: s')) =? 0) with false
    by (symmetry; apply Nat.eqb_neq; cbn [length]; lia).
  replace (Nat.min 4 (length (c :: s') - 4) =? 0) with false
    by (symmetry; apply Nat.eqb_neq; cbn [length] in *; lia).
  replace (Nat.min 4 (length (c :: s') - 4 - 4) =? 0) with false
    by (symmetry; apply Nat.eqb_neq; cbn [length] in *; lia).
  unfold read_abort. rewrite (flag_at_none E _ never).
  reflexivity.
Qed.

(** A file of version 1 or 2 with one complete record - any name, any eight
    bytes - gives one IPv4 rule whose bounds are the big-endian values of the
    two groups of four bytes, on a host of either byte order. *)
Lemma p2b_v12_one_record (version : byte) (name : list byte)
      (b0 b1 b2 b3 b4 b5 b6 b7 : byte) (th : thread) :
  code version = 1%Z \/ code version = 2%Z ->
  no_nul name = true ->
  parseP2BStream E (magic ++ version :: name ++ ch_nul
                          :: [b0; b1; b2; b3; b4; b5; b6; b7]) th
  = ((1%Z,
      Thread (m_filter th
                ++ [Rule (V4 (be_value (map code [b0; b1; b2; b3])))
                         (V4 (be_value (map code [b4; b5; b6; b7])))])
             (logged th) (S (polls th))),
     []).
Proof.
  intros Hv Hn. rewrite (p2b_version_12 E version _ th Hv).
  rewrite v12_loop_step by (simpl; auto; lia). cbv zeta.
  cbn [skipn]. rewrite v12_loop_equation_1.
  cbn [fst snd]. unfold polled. rewrite try_add_rule_v4.
  rewrite !ntohl_load32 by reflexivity. reflexivity.
Qed.

(** C2, at a file cut inside the second integer of a record: the read of [end]
    returns 2, which the test [!readRawData(...)] takes for success, so no
    error is logged and a rule is added whose upper bound mixes the two bytes
    read with what [end] held before. *)
Theorem p2b_v12_cut_record_accepted (th : thread) :
  parseP2BStream E p2b_v1_cut_end th
  = ((1%Z,
      Thread (m_filter th
                ++ [Rule (V4 16909060)
                         (V4 (be_value [1%Z; 2%Z; code (garbage E 14);
                                        code (garbage E 15)]))])
             (logged th) (S (polls th))),
     []).
Proof.
  unfold p2b_v1_cut_end.
  change (magic ++ [x01] ++ bytes "A" ++ [x00] ++ [x01; x02; x03; x04] ++ [x01; x02])
    with (magic ++ x01 :: [x41] ++ ch_nul :: [x01; x02; x03; x04; x01; x02]).
  rewrite p2b_version_12 by (left; reflexivity).
  rewrite v12_loop_step by (simpl; auto; lia). cbv zeta.
  cbn [skipn]. rewrite v12_loop_equation_1.
  cbn [fst snd]. unfold polled. rewrite try_add_rule_v4.
  rewrite !ntohl_load32 by reflexivity. reflexivity.
Qed.

(** C6, at a file cut inside [end] of its last range record: no error is
    logged and the record counts as a rule. *)
Theorem p2b_v3_cut_record_accepted (th : thread) :
  parseP2BStream E p2b_v3_cut_end th
  = ((1%Z,
      Thread (m_filter th
                ++ [Rule (V4 16909060)
                         (V4 (be_value [1%Z; 2%Z; code (garbage E 14);
                                        code (garbage E 15)]))])
             (logged th) (S (polls th))),
     []).
Proof.
  unfold p2b_v3_cut_end.
  change (magic ++ [x03] ++ [x00; x00; x00; x00] ++ [x00; x00; x00; x01]
                ++ [x00; x00; x00; x00] ++ [x01; x02; x03; x04] ++ [x01; x02])
    with (magic ++ x03 :: [x00; x00; x00; x00; x00; x00; x00; x01;
                           x00; x00; x00; x00; x01; x02; x03; x04; x01; x02]).
  rewrite p2b_version_3. cbv zeta.
  replace (readRawData 4 (uninit E 16 4)
             [x00; x00; x00; x00; x00; x00; x00; x01;
              x00; x00; x00; x00; x01; x02; x03; x04; x01; x02])
    with (RawRead 4 [x00; x00; x00; x00]
                  [x00; x00; x00; x01; x00; x00; x00; x00;
                   x01; x02; x03; x04; x01; x02]) by reflexivity.
  cbn [nread mem rest Z.eqb].
  rewrite ntohl_load32 by reflexivity.
  rewrite names_loop_body.
  change (0 <? be_value (map code [x00; x00; x00; x00]))%Z with false. cbv iota.
  replace (readRawData 4 (uninit E 20 4)
             [x00; x00; x00; x01; x00; x00; x00; x00; x01; x02; x03; x04; x01; x02])
    with (RawRead 4 [x00; x00; x00; x01]
                  [x00; x00; x00; x00; x01; x02; x03; x04; x01; x02]) by reflexivity.
  cbn [nread mem rest Z.eqb].
  rewrite ntohl_load32 by reflexivity.
  rewrite ranges_loop_step by first [reflexivity|cbn [length]; lia]. cbv zeta.
  cbn [skipn]. rewrite ranges_loop_body.
  change (0 + 1 <? be_value (map code [x00; x00; x00; x01]))%Z with false. cbv iota.
  cbn [flow_result fst snd]. unfold polled. rewrite try_add_rule_v4.
  rewrite !ntohl_load32 by reflexivity. reflexivity.
Qed.

End Uncancelled.

Lemma p2b_v12_cut_record_accepted_witness :
  parseP2BFilterFile (quiet p2b_v1_cut_end) (bytes "f.p2b") fresh
  = (1%Z, Thread [Rule (V4 16909060) (V4 16908288)] [] 1).
Proof.
  unfold parseP2BFilterFile. cbn [fs quiet].
  rewrite (p2b_v12_cut_record_accepted (quiet p2b_v1_cut_end) eq_refl fresh).
  reflexivity.
Defined.

Lemma p2b_v3_cut_record_accepted_witness :
  parseP2BFilterFile (quiet p2b_v3_cut_end) (bytes "f.p2b") fresh
  = (1%Z, Thread [Rule (V4 16909060) (V4 16908288)] [] 1).
Proof.
  unfold parseP2BFilterFile. cbn [fs quiet].
  rewrite (p2b_v3_cut_record_accepted (quiet p2b_v3_cut_end) eq_refl fresh).
  reflexivity.
Defined.

(** The same cut files a few bytes shorter are refused: what goes unnoticed is
    a cut that leaves one to three bytes of [end]. *)
Example p2b_cut_earlier :
  parseP2BFilterFile
    (quiet (magic ++ [x01] ++ bytes "A" ++ [x00] ++ [x01; x02; x03; x04]))
    (bytes "f.p2b") fresh
  = (0%Z, Thread [] [ParsingError] 1)
  /\ parseP2BFilterFile
       (quiet (magic ++ [x03] ++ [x00; x00; x00; x00] ++ [x00; x00; x00; x01]
                     ++ [x00; x00; x00; x00] ++ [x01; x02; x03; x04]))
       (bytes "f.p2b") fresh
     = (0%Z, Thread [] [ParsingError] 0).
Proof. split; reflexivity. Qed.

(** ** Cancellation *)

Lemma grows_refl (st : Z * thread) : grows st st.
Proof. exists []. rewrite app_nil_r. simpl. split; [reflexivity|lia]. Qed.

Lemma grows_trans {a b c : Z * thread} : grows a b -> grows b c -> grows a c.
Proof.
  intros (m1 & Hf1 & Hc1) (m2 & Hf2 & Hc2). exists (m1 ++ m2).
  rewrite Hf2, Hf1, Hc2, Hc1, <- app_assoc, length_app. split; [reflexivity|lia].
Qed.

Lemma grows_left (a a' b : Z * thread) :
  fst a = fst a' -> m_filter (snd a) = m_filter (snd a') -> grows a' b -> grows a b.
Proof. intros Hc Hf (m & H1 & H2). exists m. rewrite Hc, Hf. auto. Qed.

Lemma grows_right (a b b' : Z * thread) :
  fst b = fst b' -> m_filter (snd b) = m_filter (snd b') -> grows a b' -> grows a b.
Proof. intros Hc Hf (m & H1 & H2). exists m. rewrite Hc, Hf. auto. Qed.

Lemma try_add_rule_grows (a b : address) (st : Z * thread) :
  grows st (try_add_rule a b st).
Proof.
  destruct st as [n th]. unfold try_add_rule, add_rule.
  destruct (Bool.eqb (is_v4 a) (is_v4 b)); [|apply grows_refl].
  exists [Rule a b]. simpl. split; [reflexivity|lia].
Qed.

Lemma try_add_rule_polls (a b : address) (st : Z * thread) :
  polls (snd (try_add_rule a b st)) = polls (snd st).
Proof.
  destruct st as [n th]. unfold try_add_rule, add_rule.
  destruct (Bool.eqb (is_v4 a) (is_v4 b)); reflexivity.
Qed.

Lemma apply_line_grows (r : line_result) (st : Z * thread) :
  grows st (apply_line r st).
Proof. destruct r; [apply grows_refl|apply try_add_rule_grows]. Qed.

Lemma apply_line_polls (r : line_result) (st : Z * thread) :
  polls (snd (apply_line r st)) = polls (snd st).
Proof. destruct r; [reflexivity|apply try_add_rule_polls]. Qed.

Section Polls.

Variable E : env.

Lemma prompt_here (k : nat) : prompt E k k.
Proof. split; [lia|]. intros a _. lia. Qed.

Lemma prompt_next (k : nat) : prompt E k (S k).
Proof. split; [lia|]. intros a _. lia. Qed.

Lemma unseen_here (k : nat) : unseen E k k.
Proof. split; [lia|]. intros a _. lia. Qed.

Lemma flag_false_below (k a : nat) :
  flag_at E k = false -> abort_at E = Some a -> k < a.
Proof.
  unfold flag_at. intros H Ha. rewrite Ha in H. apply Nat.leb_gt in H. exact H.
Qed.

Lemma prompt_step (k k' : nat) :
  flag_at E k = false -> prompt E (S k) k' -> prompt E k k'.
Proof.
  intros Hf [Hle Hb]. split; [lia|]. intros a Ha.
  pose proof (flag_false_below k a Hf Ha). specialize (Hb a Ha). lia.
Qed.

Lemma unseen_step (k k' : nat) :
  flag_at E k = false -> unseen E (S k) k' -> unseen E k k'.
Proof.
  intros Hf [Hle Hb]. split; [lia|]. intros a Ha.
  pose proof (flag_false_below k a Hf Ha). specialize (Hb a Ha). lia.
Qed.

Lemma unseen_false (k : nat) : flag_at E k = false -> unseen E k (S k).
Proof.
  intros Hf. split; [lia|]. intros a Ha.
  pose proof (flag_false_below k a Hf Ha). lia.
Qed.

Lemma unseen_prompt (k k1 k2 : nat) :
  unseen E k k1 -> prompt E k1 k2 -> prompt E k k2.
Proof.
  intros [H1 B1] [H2 B2]. split; [lia|]. intros a Ha.
  specialize (B1 a Ha). specialize (B2 a Ha). lia.
Qed.

Lemma unseen_is_prompt (k k' : nat) : unseen E k k' -> prompt E k k'.
Proof. intros H. apply (unseen_prompt k k' k' H (prompt_here k')). Qed.

End Polls.

(** One run of the line loop: the filter only gains rules, [ruleCount] counts
    them, and the loop stops at the first poll that reads [true]. *)
Lemma line_loop_run (E : env) (body : list byte -> line_result)
      (file : list byte) (st : Z * thread) :
  grows st (line_loop E body file st)
  /\ prompt E (polls (snd st)) (polls (snd (line_loop E body file st)))
  /\ logged (snd (line_loop E body file st)) = logged (snd st).
Proof.
  remember (length file) as n eqn:Hn. revert file Hn st.
  induction n as [n IH] using lt_wf_ind. intros [|c f] Hn st; simp line_loop.
  - split; [apply grows_refl|]. split; [apply prompt_here|reflexivity].
  - unfold read_abort.
    destruct (flag_at E (polls (snd st))) eqn:Hflag.
    + split; [|split; [apply prompt_next|reflexivity]].
      apply grows_right with st; [reflexivity|reflexivity|apply grows_refl].
    + pose proof (readLine_shrinks c f) as Hlt.
      set (st1 := apply_line (body (fst (readLine (c :: f))))
                             (fst st, Thread (m_filter (snd st)) (logged (snd st))
                                             (S (polls (snd st))))).
      destruct (IH (length (snd (readLine (c :: f)))) ltac:(lia)
                   (snd (readLine (c :: f))) eq_refl st1) as (Hg & Hp & Hl).
      assert (Hst1 : grows st st1).
      { apply grows_left with (fst st, Thread (m_filter (snd st)) (logged (snd st))
                                              (S (polls (snd st))));
          [reflexivity|reflexivity|apply apply_line_grows]. }
      split; [exact (grows_trans Hst1 Hg)|]. split.
      * apply prompt_step; [exact Hflag|].
        subst st1. rewrite apply_line_polls in Hp. exact Hp.
      * rewrite Hl. subst st1.
        destruct (body (fst (readLine (c :: f)))) as [w|a b]; [reflexivity|].
        destruct st as [k th]. unfold apply_line, try_add_rule, add_rule. simpl.
        destruct (Bool.eqb (is_v4 a) (is_v4 b)); reflexivity.
Qed.



Lemma v12_next_shorter (c : byte) (s' name a b : list byte) :
  length (rest (readRawData 4 b
                  (rest (readRawData 4 a
                           (gl_rest (getlineInStream (c :: s') name ch_nul))))))
  < length (c :: s').
Proof.
  cbn [readRawData rest].
  eapply Nat.le_lt_trans; [apply skipn_length_le|].
  eapply Nat.le_lt_trans; [apply skipn_length_le|].
  apply getline_shrinks.
Qed.

Lemma p2b_fatal_grows (st : Z * thread) (s : list byte) :
  grows st (fst (p2b_fatal st s)).
Proof. grows_nil. Qed.

(** One run of the loop of versions 1 and 2. *)
Lemma v12_loop_run (E : env) (s name start_ end_ : list byte) (st : Z * thread) :
  grows st (fst (v12_loop E s name start_ end_ st))
  /\ prompt E (polls (snd st)) (polls (snd (fst (v12_loop E s name start_ end_ st)))).
Proof.
  remember (length s) as n eqn:Hn. revert s Hn name start_ end_ st.
  induction n as [n IH] using lt_wf_ind. intros [|c s'] Hn name start_ end_ st.
  - simp v12_loop. split; [apply grows_refl|apply prompt_here].
  - rewrite v12_loop_equation_2. cbv zeta.
    destruct (gl_total (getlineInStream (c :: s') name ch_nul) =? 0)%Z.
    { split; [apply grows_refl|apply prompt_here]. }
    unfold read_abort.
    set (th := Thread (m_filter (snd st)) (logged (snd st)) (S (polls (snd st)))).
    assert (Hth : grows st (fst st, th))
      by (apply grows_right with st; [reflexivity|reflexivity|apply grows_refl]).
    destruct (flag_at E (polls (snd st))) eqn:Hflag.
    { split; [exact Hth|apply prompt_next]. }
    destruct (nread (readRawData 4 start_ _) =? 0)%Z.
    { split; [exact Hth|apply prompt_next]. }
    destruct (nread (readRawData 4 end_ _) =? 0)%Z.
    { split; [exact Hth|apply prompt_next]. }
    pose proof (v12_next_shorter c s' name start_ end_) as Hlt.
    match goal with
    | |- context [v12_loop E ?s1 ?n1 ?a1 ?b1 ?st1] =>
        destruct (IH (length s1) ltac:(lia) s1 eq_refl n1 a1 b1 st1) as [Hg Hp];
        assert (Hst1 : grows st st1)
          by (eapply grows_trans; [exact Hth|apply try_add_rule_grows]);
        assert (Hk : polls (snd st1) = S (polls (snd st)))
          by (rewrite try_add_rule_polls; reflexivity)
    end.
    split; [exact (grows_trans Hst1 Hg)|].
    apply prompt_step; [exact Hflag|]. rewrite <- Hk. exact Hp.
Qed.



(** One run of the name loop of version 3: no rule is added; when the loop
    falls through, no poll has read [true]. *)
Lemma names_loop_run (E : env) (i namecount : Z) (s : list byte) (st : Z * thread) :
  let f := names_loop E i namecount s st in
  fst (fst (flow_result f)) = fst st
  /\ m_filter (snd (fst (flow_result f))) = m_filter (snd st)
  /\ match f with
     | Return r => prompt E (polls (snd st)) (polls (snd (fst r)))
     | Fallthrough r => unseen E (polls (snd st)) (polls (snd (fst r)))
     end.
Proof.
  remember (length s) as n eqn:Hn. revert s Hn i st.
  induction n as [n IH] using lt_wf_ind. intros s Hn i st. cbv zeta.
  rewrite names_loop_body.
  destruct (i <? namecount)%Z.
  2:{ simpl. split; [reflexivity|]. split; [reflexivity|apply unseen_here]. }
  destruct s as [|c s'].
  { simpl. split; [reflexivity|]. split; [reflexivity|apply prompt_here]. }
  cbv zeta.
  destruct (gl_total (getlineInStream (c :: s') [] ch_nul) =? 0)%Z.
  { simpl. split; [reflexivity|]. split; [reflexivity|apply prompt_here]. }
  unfold read_abort.
  destruct (flag_at E (polls (snd st))) eqn:Hflag.
  { simpl. split; [reflexivity|]. split; [reflexivity|apply prompt_next]. }
  pose proof (getline_shrinks c s' [] ch_nul) as Hlt.
  match goal with
  | |- context [names_loop E ?i1 _ ?s1 ?st1] =>
      pose proof (IH (length s1) ltac:(lia) s1 eq_refl i1 st1) as IH1
  end.
  cbv zeta in IH1. destruct IH1 as (Hc & Hf & Hp).
  split; [exact Hc|]. split; [exact Hf|].
  destruct (names_loop E (i + 1) namecount _ _) as [r|r].
  - apply prompt_step; [exact Hflag|exact Hp].
  - apply unseen_step; [exact Hflag|exact Hp].
Qed.


Lemma ranges_next_shorter (c : byte) (s' name a b : list byte) :
  length (rest (readRawData 4 b
                  (rest (readRawData 4 a (rest (readRawData 4 name (c :: s')))))))
  < length (c :: s').
Proof.
  cbn [readRawData rest].
  eapply Nat.le_lt_trans; [apply skipn_length_le|].
  eapply Nat.le_lt_trans; [apply skipn_length_le|].
  rewrite length_skipn. simpl. lia.
Qed.

(** One run of the range loop of version 3. *)
Lemma ranges_loop_run (E : env) (i rangecount : Z) (s name start_ end_ : list byte)
      (st : Z * thread) :
  let r := flow_result (ranges_loop E i rangecount s name start_ end_ st) in
  grows st (fst r) /\ prompt E (polls (snd st)) (polls (snd (fst r))).
Proof.
  remember (length s) as n eqn:Hn. revert s Hn i name start_ end_ st.
  induction n as [n IH] using lt_wf_ind. intros s Hn i name start_ end_ st.
  cbv zeta. rewrite ranges_loop_body.
  destruct (i <? rangecount)%Z.
  2:{ simpl. split; [apply grows_refl|apply prompt_here]. }
  destruct s as [|c s'].
  { simpl. split; [grows_nil|apply prompt_here]. }
  cbv zeta.
  destruct (nread (readRawData 4 name _) =? 0)%Z.
  { simpl. split; [grows_nil|apply prompt_here]. }
  destruct (nread (readRawData 4 start_ _) =? 0)%Z.
  { simpl. split; [grows_nil|apply prompt_here]. }
  destruct (nread (readRawData 4 end_ _) =? 0)%Z.
  { simpl. split; [grows_nil|apply prompt_here]. }
  match goal with
  | |- context [try_add_rule ?x ?y st] =>
      pose proof (try_add_rule_grows x y st) as Hadd;
      pose proof (try_add_rule_polls x y st) as Hk;
      set (st' := try_add_rule x y st) in *
  end.
  unfold read_abort.
  set (th := Thread (m_filter (snd st')) (logged (snd st')) (S (polls (snd st')))).
  assert (Hth : grows st (fst st', th)).
  { apply grows_right with st'; [reflexivity|reflexivity|exact Hadd]. }
  rewrite <- Hk.
  destruct (flag_at E (polls (snd st'))) eqn:Hflag.
  { simpl. split; [exact Hth|apply prompt_next]. }
  pose proof (ranges_next_shorter c s' name start_ end_) as Hlt.
  match goal with
  | |- context [ranges_loop E ?i1 _ ?s1 ?n1 ?a1 ?b1 ?st1] =>
      pose proof (IH (length s1) ltac:(lia) s1 eq_refl i1 n1 a1 b1 st1) as IH1
  end.
  cbv zeta in IH1. destruct IH1 as [Hg Hp].
  split; [exact (grows_trans Hth Hg)|].
  apply prompt_step; [exact Hflag|exact Hp].
Qed.


(** One run of the P2B parser on an opened file. *)
Lemma parseP2BStream_run (E : env) (content : list byte) (th : thread) :
  let r := fst (parseP2BStream E content th) in
  grows (0%Z, th) r /\ prompt E (polls th) (polls (snd r)).
Proof.
  cbv zeta. unfold parseP2BStream. cbv zeta.
  destruct (_ || _).
  { split; [grows_nil|apply prompt_here]. }
  destruct (nread _ =? 0)%Z.
  { split; [grows_nil|apply prompt_here]. }
  destruct (_ || _).
  { apply (v12_loop_run E _ _ _ _ (0%Z, th)). }
  destruct (_ =? 3)%Z.
  2:{ split; [grows_nil|apply prompt_here]. }
  destruct (nread _ =? 0)%Z.
  { split; [grows_nil|apply prompt_here]. }
  match goal with
  | |- context [names_loop E ?i ?n ?s ?st] =>
      pose proof (names_loop_run E i n s st) as Hnames;
      destruct (names_loop E i n s st) as [r|[st1 s1]]
  end; cbv zeta in Hnames; simpl in Hnames; destruct Hnames as (Hc & Hf & Hp).
  { split; [|exact Hp].
    exists []. simpl. rewrite app_nil_r, Hc, Hf. split; [reflexivity|lia]. }
  assert (Hst1 : grows (0%Z, th) st1).
  { exists []. simpl. rewrite app_nil_r, Hc, Hf. split; [reflexivity|lia]. }
  destruct (nread _ =? 0)%Z.
  { split; [|apply unseen_is_prompt; exact Hp].
    eapply grows_trans; [exact Hst1|grows_nil]. }
  match goal with
  | |- context [ranges_loop E ?i ?n ?s ?a ?b ?c ?st] =>
      pose proof (ranges_loop_run E i n s a b c st) as Hranges;
      destruct (ranges_loop E i n s a b c st) as [r|r]
  end; cbv zeta in Hranges; simpl in Hranges; destruct Hranges as (Hg & Hq);
    (split; [exact (grows_trans Hst1 Hg)|exact (unseen_prompt E _ _ _ Hp Hq)]).
Qed.


Lemma run_calls (E : env) (m_filePath : list byte) (th : thread) :
  run E m_filePath th
  = let st := call_parser E (dispatch m_filePath) m_filePath th in
    let th2 := Thread (m_filter (snd st)) (logged (snd st)) (S (polls (snd st))) in
    if flag_at E (polls (snd st)) then RunResult (dispatch m_filePath) (fst st) th2 []
    else RunResult (dispatch m_filePath) (fst st) th2
                   (IPFilterParsed (fst st)
                    :: (if emit_throws E then [IPFilterError] else [])).
Proof.
  unfold run, call_parser, read_abort.
  destruct (dispatch m_filePath) as [[| |]|]; [| | |reflexivity].
  - destruct (parseP2PFilterFile E m_filePath th) as [n th1]. reflexivity.
  - destruct (parseP2BFilterFile E m_filePath th) as [n th1]. reflexivity.
  - destruct (parseDATFilterFile E m_filePath th) as [n th1]. reflexivity.
Qed.

(** One call of a parser: rules are only added, [ruleCount] counts them, and
    the parser returns at the first poll that reads [true]. *)
Lemma call_parser_run (E : env) (fmt : option format) (path : list byte) (th : thread) :
  let st := call_parser E fmt path th in
  grows (0%Z, th) st /\ prompt E (polls th) (polls (snd st)).
Proof.
  cbv zeta. unfold call_parser.
  destruct fmt as [[| |]|];
    unfold parseP2PFilterFile, parseP2BFilterFile, parseDATFilterFile.
  - destruct (fs E path); [split; [grows_nil|apply prompt_here]..|].
    destruct (line_loop_run E p2p_line content (0%Z, th)) as (Hg & Hp & _). auto.
  - destruct (fs E path); [split; [grows_nil|apply prompt_here]..|].
    apply parseP2BStream_run.
  - destruct (fs E path); [split; [grows_nil|apply prompt_here]..|].
    destruct (line_loop_run E dat_line content (0%Z, th)) as (Hg & Hp & _). auto.
  - split; [grows_nil|apply prompt_here].
Qed.





(** * Further properties *)

(** ** [getlineInStream] *)

Lemma getline_from_accounts (d : byte) (s : list byte) :
  forall (t : Z) (name : list byte),
    let r := getline_from t s name d in
    gl_total r = (t + Z.of_nat (length s - length (gl_rest r)))%Z
    /\ length (gl_rest r) <= length s
    /\ exists read : list byte,
        gl_name r = name ++ read
        /\ free_of d read = true
        /\ (s = read ++ d :: gl_rest r \/ (s = read /\ gl_rest r = [])).
Proof.
  induction s as [|c s IH]; intros t name; cbv zeta.
  - cbn [getline_from gl_total gl_rest gl_name fst snd length Nat.sub Z.of_nat].
    split; [lia|]. split; [lia|].
    exists []. rewrite app_nil_r. auto.
  - cbn [getline_from]. destruct (Byte.eqb c d) eqn:Hc; cbn [negb].
    + apply Byte.byte_dec_bl in Hc. subst c.
      cbn [gl_total gl_rest gl_name fst snd length].
      split; [rewrite Nat.sub_succ_l, Nat.sub_diag by lia; lia|]. split; [lia|].
      exists []. rewrite app_nil_r. auto.
    + specialize (IH (t + 1)%Z (name ++ [c])). cbv zeta in IH.
      destruct IH as (Ht & Hle & read & Hname & Hfree & Hs).
      split; [rewrite Ht; cbn [length]; lia|]. split; [cbn [length]; lia|].
      exists (c :: read). rewrite Hname, <- app_assoc.
      split; [reflexivity|]. split.
      * unfold free_of in *. simpl. rewrite Hc, Hfree. reflexivity.
      * destruct Hs as [Hs|[Hs Hr]]; [left|right].
        -- rewrite Hs at 1. reflexivity.
        -- split; [rewrite Hs at 1; reflexivity|exact Hr].
Qed.

(** X1: [getlineInStream] returns the number of bytes it took from the stream,
    which is 0 exactly when the stream was at its end; the bytes taken, without
    the delimiter that ended them, are appended to [name]; and the stream is
    left just after the delimiter, or at its end when no delimiter came. *)
Theorem getlineInStream_accounts (s name : list byte) (d : byte) :
  let r := getlineInStream s name d in
  gl_total r = Z.of_nat (length s - length (gl_rest r))
  /\ length (gl_rest r) <= length s
  /\ (gl_total r = 0%Z <-> s = [])
  /\ exists read : list byte,
      gl_name r = name ++ read
      /\ free_of d read = true
      /\ (s = read ++ d :: gl_rest r \/ (s = read /\ gl_rest r = [])).
Proof.
  cbv zeta. unfold getlineInStream.
  destruct (getline_from_accounts d s 0 name) as (Ht & Hle & Hread).
  split; [rewrite Ht; lia|]. split; [exact Hle|]. split; [|exact Hread].
  split.
  - intros H0. destruct s as [|c s]; [reflexivity|exfalso].
    pose proof (getline_shrinks c s name d) as Hlt.
    unfold getlineInStream in Hlt. rewrite Ht in H0. lia.
  - intros ->. reflexivity.
Qed.

(** ** Surrounding whitespace *)

Lemma dropWhile_app (p : byte -> bool) (l m : list byte) :
  dropWhile p (l ++ m)
  = match dropWhile p l with
    | [] => dropWhile p m
    | _ => dropWhile p l ++ m
    end.
Proof.
  induction l as [|c l IH]; [reflexivity|].
  cbn [app dropWhile]. destruct (p c); [exact IH|reflexivity].
Qed.

Lemma dropWhile_all (p : byte -> bool) (ws : list byte) :
  forallb p ws = true -> dropWhile p ws = [].
Proof.
  induction ws as [|c ws IH]; [reflexivity|]. simpl.
  intros H. apply andb_true_iff in H as [Hc Hws]. rewrite Hc. auto.
Qed.

Lemma trimmed_app_left (ws l : list byte) :
  all_space ws = true -> trimmed (ws ++ l) = trimmed l.
Proof.
  intros H. unfold trimmed. rewrite dropWhile_app, (dropWhile_all _ _ H).
  reflexivity.
Qed.

Lemma trimmed_app_right (l ws : list byte) :
  all_space ws = true -> trimmed (l ++ ws) = trimmed l.
Proof.
  intros H. unfold trimmed. rewrite dropWhile_app.
  destruct (dropWhile isspace l) as [|c l'] eqn:Hl.
  - rewrite (dropWhile_all _ _ H). reflexivity.
  - rewrite rev_app_distr, dropWhile_app.
    assert (Hrev : forallb isspace (rev ws) = true).
    { unfold all_space in H. rewrite forallb_forall in *.
      intros x Hx. apply H, in_rev. exact Hx. }
    rewrite (dropWhile_all _ _ Hrev). reflexivity.
Qed.

(** X2: whitespace before and after a text changes nothing: not for an
    address, not for a line of either text format.  So a line gives the same
    result with an LF, a CR LF or no terminator at its end. *)
Theorem surrounding_whitespace_ignored (ws1 ws2 text : list byte) :
  all_space ws1 = true ->
  all_space ws2 = true ->
  parseIPAddress (ws1 ++ text ++ ws2) = parseIPAddress text
  /\ dat_line (ws1 ++ text ++ ws2) = dat_line text
  /\ p2p_line (ws1 ++ text ++ ws2) = p2p_line text.
Proof.
  intros H1 H2.
  assert (Ht : trimmed (ws1 ++ text ++ ws2) = trimmed text)
    by (rewrite trimmed_app_left, trimmed_app_right; auto).
  unfold parseIPAddress, normalizeIP, dat_line, p2p_line. rewrite Ht. auto.
Qed.

Lemma surrounding_whitespace_ignored_witness :
  dat_line (bytes "  1.2.3.4-1.2.3.9,50" ++ [x0d; x0a])
  = dat_line (bytes "1.2.3.4-1.2.3.9,50")
  /\ dat_line (bytes "1.2.3.4-1.2.3.9,50") = AddRule (V4 16909060) (V4 16909065).
Proof.
  split; [|reflexivity].
  apply (surrounding_whitespace_ignored (bytes "  ") [x0d; x0a]
           (bytes "1.2.3.4-1.2.3.9,50") eq_refl eq_refl).
Defined.

(** ** Stripping zeros keeps the number *)

Lemma digits_from_zero (c : byte) (l : list byte) :
  Byte.eqb c ch_zero = true -> digits_from 0 (c :: l) = digits_from 0 l.
Proof.
  intros H. apply Byte.byte_dec_bl in H. subst c. reflexivity.
Qed.

(** X3: the loop over the octets never empties a part, never lengthens it, and
    on a part made of digits it keeps the number the part denotes. *)
Theorem strip_octet_keeps_value (octet : list byte) :
  octet <> [] ->
  strip_octet octet <> []
  /\ length (strip_octet octet) <= length octet
  /\ length octet <= length (strip_octet octet) + 2
  /\ (forallb isdigit octet = true -> decimal (strip_octet octet) = decimal octet).
Proof.
  intros Hne. destruct octet as [|a [|b [|c l]]]; [contradiction| | |];
    unfold strip_octet; cbn [length Nat.ltb Nat.leb andb];
    destruct (Byte.eqb a ch_zero) eqn:Ha; cbn [andb];
    try rewrite andb_false_r;
    try (destruct (Byte.eqb b ch_zero) eqn:Hb; cbn [andb]);
    cbn [skipn length];
    (split; [discriminate|]); (split; [lia|]); (split; [lia|]);
    intros _; unfold decimal;
    try rewrite (digits_from_zero a _ Ha);
    try rewrite (digits_from_zero b _ Hb); reflexivity.
Qed.

Lemma strip_octet_keeps_value_witness :
  strip_octet (bytes "007") = bytes "7"
  /\ decimal (strip_octet (bytes "007")) = decimal (bytes "007").
Proof.
  split; [reflexivity|].
  apply (strip_octet_keeps_value (bytes "007")); [discriminate|reflexivity].
Defined.

(** ** The text parsers, line by line *)

Lemma after_field_family (field : list byte) (a b : address) :
  after_field field = AddRule a b -> Bool.eqb (is_v4 a) (is_v4 b) = true.
Proof.
  unfold after_field. cbv zeta.
  destruct (negb (length (split ch_dash field) =? 2)); [discriminate|].
  destruct (parseIPAddress (nth 0 (split ch_dash field) [])) as [x|]; [|discriminate].
  destruct (parseIPAddress (nth 1 (split ch_dash field) [])) as [y|]; [|discriminate].
  destruct (Bool.eqb (is_v4 x) (is_v4 y)) eqn:H4; cbn [negb]; [|discriminate].
  destruct (negb (Bool.eqb (is_v6 x) (is_v6 y))); [discriminate|].
  intros H. injection H as <- <-. exact H4.
Qed.

Lemma line_family (raw : list byte) (a b : address) :
  dat_line raw = AddRule a b \/ p2p_line raw = AddRule a b ->
  Bool.eqb (is_v4 a) (is_v4 b) = true.
Proof.
  intros [H|H].
  - destruct (isEmpty (trimmed raw)) eqn:He;
      [unfold dat_line in H; rewrite He in H; discriminate H|].
    destruct (is_comment (trimmed raw)) eqn:Hc;
      [unfold dat_line in H; rewrite He, Hc in H; discriminate H|].
    rewrite (dat_line_fields raw He Hc) in H. cbv zeta in H.
    destruct (_ && _) in H; [discriminate H|].
    rewrite <- after_field_range in H. exact (after_field_family _ a b H).
  - destruct (isEmpty (trimmed raw)) eqn:He;
      [unfold p2p_line in H; rewrite He in H; discriminate H|].
    destruct (is_comment (trimmed raw)) eqn:Hc;
      [unfold p2p_line in H; rewrite He, Hc in H; discriminate H|].
    rewrite (p2p_line_fields raw He Hc) in H. cbv zeta in H.
    destruct (_ <? 2) in H; [discriminate H|].
    rewrite <- after_field_range in H. exact (after_field_family _ a b H).
Qed.

(** X4: whenever a line of either text format reaches [add_rule], the two
    addresses are of one family, so [add_rule] does not throw: the rule is
    added and counted, and the [catch] branch is never taken. *)
Theorem text_rule_never_rejected (raw : list byte) (a b : address) (st : Z * thread) :
  dat_line raw = AddRule a b \/ p2p_line raw = AddRule a b ->
  is_v4 a = is_v4 b
  /\ is_v6 a = is_v6 b
  /\ add_rule a b (m_filter (snd st)) = Some (m_filter (snd st) ++ [Rule a b])
  /\ try_add_rule a b st
     = ((fst st + 1)%Z, set_filter (m_filter (snd st) ++ [Rule a b]) (snd st)).
Proof.
  intros H. pose proof (line_family raw a b H) as Hfam.
  destruct st as [n th]. unfold try_add_rule, add_rule. rewrite Hfam.
  apply Bool.eqb_prop in Hfam.
  split; [exact Hfam|]. split; [|split; reflexivity].
  destruct a, b; simpl in *; congruence.
Qed.

Lemma text_rule_never_rejected_witness :
  try_add_rule (V6 1) (V6 9) (0%Z, fresh) = (1%Z, Thread [Rule (V6 1) (V6 9)] [] 0).
Proof.
  destruct (text_rule_never_rejected (bytes "::1-::9") (V6 1) (V6 9) (0%Z, fresh)
              (or_introl eq_refl)) as (_ & _ & _ & H).
  rewrite H. reflexivity.
Defined.

Lemma file_lines_readLine (c : byte) (f : list byte) :
  file_lines (c :: f)
  = fst (readLine (c :: f)) :: file_lines (snd (readLine (c :: f))).
Proof.
  revert c. induction f as [|d f IH]; intros c.
  - simpl. destruct (Byte.eqb c ch_lf); reflexivity.
  - change (file_lines (c :: d :: f))
      with (if Byte.eqb c ch_lf then [c] :: file_lines (d :: f)
            else match file_lines (d :: f) with
                 | [] => [[c]]
                 | l :: ls => (c :: l) :: ls
                 end).
    change (readLine (c :: d :: f))
      with (if Byte.eqb c ch_lf then ([c], d :: f)
            else let (l, r) := readLine (d :: f) in (c :: l, r)).
    destruct (Byte.eqb c ch_lf); [reflexivity|].
    rewrite (IH d). destruct (readLine (d :: f)). reflexivity.
Qed.

Lemma apply_line_rules (body : list byte -> line_result) (l : list byte)
      (n : Z) (th : thread) :
  apply_line (body l) (n, th)
  = ((n + Z.of_nat (length (line_rules body [l])))%Z,
     Thread (m_filter th ++ line_rules body [l]) (logged th) (polls th)).
Proof.
  unfold line_rules. cbn [flat_map]. rewrite app_nil_r.
  destruct th as [f lg k]. destruct (body l) as [w|a b]; cbn [apply_line].
  - cbn. rewrite app_nil_r, Z.add_0_r. reflexivity.
  - unfold try_add_rule, add_rule. cbn [m_filter].
    destruct (Bool.eqb (is_v4 a) (is_v4 b)); cbn.
    + reflexivity.
    + rewrite app_nil_r, Z.add_0_r. reflexivity.
Qed.

Lemma line_rules_cons (body : list byte -> line_result) (l : list byte)
      (ls : list (list byte)) :
  line_rules body (l :: ls) = line_rules body [l] ++ line_rules body ls.
Proof. unfold line_rules. cbn [flat_map]. rewrite app_nil_r. reflexivity. Qed.

(** The line loop without cancellation: every line is read, and the rules of
    the lines are added in the order of the file. *)
Lemma line_loop_all (E : env) (body : list byte -> line_result) (file : list byte)
      (st : Z * thread) :
  abort_at E = None ->
  line_loop E body file st
  = ((fst st + Z.of_nat (length (line_rules body (file_lines file))))%Z,
     Thread (m_filter (snd st) ++ line_rules body (file_lines file))
            (logged (snd st))
            (polls (snd st) + length (file_lines file))).
Proof.
  intros Hab. remember (length file) as n eqn:Hn. revert file Hn st.
  induction n as [n IH] using lt_wf_ind. intros [|c f] Hn [k th].
  - simp line_loop. destruct th as [flt lg p]. cbn.
    rewrite app_nil_r, Z.add_0_r, Nat.add_0_r. reflexivity.
  - rewrite line_loop_equation_2. unfold read_abort. cbn [fst snd].
    rewrite (flag_at_none E _ Hab).
    pose proof (readLine_shrinks c f) as Hlt.
    rewrite file_lines_readLine, line_rules_cons.
    rewrite (apply_line_rules body (fst (readLine (c :: f))) k).
    rewrite (IH (length (snd (readLine (c :: f)))) ltac:(lia) _ eq_refl).
    cbn [fst snd m_filter logged polls length].
    rewrite !length_app, Nat2Z.inj_add, <- app_assoc.
    f_equal; [lia|]. f_equal. lia.
Qed.

(** X5: without cancellation, the DAT and the P2P parser read every line of a
    readable file, add the rules of the lines that give one in the order of
    the file, return their number, and log nothing. *)
Theorem text_parsers_add_the_rules_of_the_lines
        (E : env) (path content : list byte) (th : thread) :
  abort_at E = None ->
  fs E path = Readable content ->
  parseDATFilterFile E path th
  = (Z.of_nat (length (line_rules dat_line (file_lines content))),
     Thread (m_filter th ++ line_rules dat_line (file_lines content))
            (logged th) (polls th + length (file_lines content)))
  /\ parseP2PFilterFile E path th
     = (Z.of_nat (length (line_rules p2p_line (file_lines content))),
        Thread (m_filter th ++ line_rules p2p_line (file_lines content))
               (logged th) (polls th + length (file_lines content))).
Proof.
  intros Hab Hfs. unfold parseDATFilterFile, parseP2PFilterFile. rewrite Hfs.
  rewrite !(line_loop_all E _ content _ Hab). split; reflexivity.
Qed.

Lemma text_parsers_add_the_rules_of_the_lines_witness :
  parseDATFilterFile (quiet three_rules) (bytes "f.dat") fresh
  = (3%Z, Thread [Rule (V4 167772161) (V4 167772169);
                  Rule (V4 167772417) (V4 167772425);
                  Rule (V4 167772673) (V4 167772681)] [] 3).
Proof.
  destruct (text_parsers_add_the_rules_of_the_lines
              (quiet three_rules) (bytes "f.dat") three_rules fresh eq_refl eq_refl)
    as [H _].
  rewrite H. reflexivity.
Defined.

Lemma file_lines_not_nil (c : byte) (f : list byte) : file_lines (c :: f) <> [].
Proof. rewrite file_lines_readLine. discriminate. Qed.

Lemma file_lines_app (a b : list byte) :
  file_lines ((a ++ [ch_lf]) ++ b) = file_lines (a ++ [ch_lf]) ++ file_lines b.
Proof.
  induction a as [|c a IH]; [reflexivity|].
  cbn [app file_lines]. destruct (Byte.eqb c ch_lf).
  - rewrite IH. reflexivity.
  - rewrite IH.
    destruct (file_lines (a ++ [ch_lf])) as [|l ls] eqn:Hl; [|reflexivity].
    exfalso. destruct a; exact (file_lines_not_nil _ _ Hl).
Qed.

Lemma line_rules_app (body : list byte -> line_result) (l1 l2 : list (list byte)) :
  line_rules body (l1 ++ l2) = line_rules body l1 ++ line_rules body l2.
Proof. unfold line_rules. apply flat_map_app. Qed.

(** X6: without cancellation, parsing a file whose first part ends with a line
    feed is parsing the first part and then the rest: the lines do not
    influence one another, and a line that gives no rule leaves the rules of
    the other lines as they are. *)
Theorem lines_are_independent (E : env) (body : list byte -> line_result)
        (a b : list byte) (st : Z * thread) :
  abort_at E = None ->
  line_loop E body ((a ++ [ch_lf]) ++ b) st
  = line_loop E body b (line_loop E body (a ++ [ch_lf]) st)
  /\ (line_rules body (file_lines (a ++ [ch_lf])) = [] ->
      m_filter (snd (line_loop E body ((a ++ [ch_lf]) ++ b) st))
      = m_filter (snd (line_loop E body b st))
      /\ fst (line_loop E body ((a ++ [ch_lf]) ++ b) st)
         = fst (line_loop E body b st)).
Proof.
  intros Hab. rewrite !(line_loop_all E body _ _ Hab). cbn [fst snd m_filter logged polls].
  rewrite file_lines_app, line_rules_app.
  rewrite !length_app, Nat2Z.inj_add, <- app_assoc.
  split.
  - f_equal; [lia|]. f_equal. lia.
  - intros Hnil. rewrite Hnil. cbn. split; [reflexivity|lia].
Qed.

Lemma lines_are_independent_witness :
  line_loop (quiet []) dat_line
            ((bytes "1.2.3.4,50" ++ [ch_lf]) ++ bytes "10.0.0.1-10.0.0.9") (0%Z, fresh)
  = (1%Z, Thread [Rule (V4 167772161) (V4 167772169)] [] 2)
  /\ m_filter (snd (line_loop (quiet []) dat_line
                              ((bytes "1.2.3.4,50" ++ [ch_lf])
                                 ++ bytes "10.0.0.1-10.0.0.9") (0%Z, fresh)))
     = m_filter (snd (line_loop (quiet []) dat_line (bytes "10.0.0.1-10.0.0.9")
                                (0%Z, fresh))).
Proof.
  destruct (lines_are_independent (quiet []) dat_line (bytes "1.2.3.4,50")
              (bytes "10.0.0.1-10.0.0.9") (0%Z, fresh) eq_refl) as [H Hskip].
  split; [rewrite H; reflexivity|].
  apply (Hskip eq_refl).
Defined.

(** X7: the text parsers never report a line: whatever the file holds and
    whenever the run is cancelled, the only message they can log is the I/O
    error of a file that exists and cannot be opened. *)
Theorem text_parsers_log_only_open_failures (E : env) (path : list byte) (th : thread) :
  let note := match fs E path with
              | Unreadable => [IOError]
              | _ => []
              end in
  logged (snd (parseDATFilterFile E path th)) = logged th ++ note
  /\ logged (snd (parseP2PFilterFile E path th)) = logged th ++ note.
Proof.
  cbv zeta. unfold parseDATFilterFile, parseP2PFilterFile.
  destruct (fs E path) as [| |content]; cbn [snd logged addMessage];
    rewrite ?app_nil_r; try (split; reflexivity).
  destruct (line_loop_run E dat_line content (0%Z, th)) as (_ & _ & Hd).
  destruct (line_loop_run E p2p_line content (0%Z, th)) as (_ & _ & Hp).
  split; assumption.
Qed.

(** ** The fields of a line *)

Lemma split_app_sep (sep : byte) (a b : list byte) :
  split sep (a ++ sep :: b) = split sep a ++ split sep b.
Proof.
  induction a as [|c a IH].
  - assert (Hs : Byte.eqb sep sep = true) by (apply Byte.byte_dec_lb; reflexivity).
    cbn [app split]. rewrite Hs. reflexivity.
  - cbn [app split]. rewrite IH. destruct (Byte.eqb c sep); [reflexivity|].
    pose proof (split_not_nil sep a) as Hn.
    destruct (split sep a) as [|p ps]; [contradiction|]. reflexivity.
Qed.

Lemma split_free (sep : byte) (l : list byte) :
  free_of sep l = true -> split sep l = [l].
Proof.
  unfold free_of. induction l as [|c l IH]; [reflexivity|].
  cbn [forallb split]. intros H. apply andb_true_iff in H as [Hc Hl].
  apply negb_true_iff in Hc. rewrite Hc, (IH Hl). reflexivity.
Qed.

Lemma split_length (sep : byte) (l : list byte) :
  length (split sep l) = S (occurrences sep l).
Proof.
  unfold occurrences. induction l as [|c l IH]; [reflexivity|].
  cbn [split filter]. destruct (Byte.eqb c sep).
  - cbn [length]. rewrite IH. reflexivity.
  - pose proof (split_not_nil sep l) as Hn.
    destruct (split sep l) as [|p ps]; [contradiction|]. exact IH.
Qed.

Lemma range_field_dashes (field : list byte) :
  (range_field field = Skip NotTwoIPs <-> occurrences ch_dash field <> 1)
  /\ forall a b : list byte,
      field = a ++ ch_dash :: b ->
      free_of ch_dash a = true ->
      free_of ch_dash b = true ->
      range_field field
      = match parseIPAddress a, parseIPAddress b with
        | None, _ => Skip BadStartIP
        | Some _, None => Skip BadEndIP
        | Some x, Some y =>
            if Bool.eqb (is_v4 x) (is_v4 y) then AddRule x y else Skip V4Mismatch
        end.
Proof.
  split.
  - pose proof (split_length ch_dash field) as Hlen. unfold range_field.
    destruct (split ch_dash field) as [|a [|b [|c l]]]; cbn [length] in Hlen.
    + discriminate Hlen.
    + split; [intros _; lia|reflexivity].
    + split; [|intros H; lia].
      destruct (parseIPAddress a) as [[x|x]|]; [| |discriminate];
        destruct (parseIPAddress b) as [[y|y]|]; discriminate.
    + split; [intros _; lia|reflexivity].
  - intros a b -> Ha Hb. unfold range_field.
    rewrite split_app_sep, (split_free _ a Ha), (split_free _ b Hb). cbn [app].
    destruct (parseIPAddress a) as [[x|x]|]; [| |reflexivity];
      destruct (parseIPAddress b) as [[y|y]|]; reflexivity.
Qed.

(** X8: on a line that is neither empty nor a comment, the DAT loop, once the
    access check is passed, and the P2P loop, once the line has two fields,
    take up the range field - the first field between commas, the last field
    between colons - only if it holds exactly one '-'; then the text before
    the dash and the text after it are parsed as the two addresses, and the
    line gives a rule exactly when both parse to one family. *)
Theorem range_field_one_dash (raw field : list byte) :
  isEmpty (trimmed raw) = false ->
  is_comment (trimmed raw) = false ->
  let outcome (a b : list byte) :=
    match parseIPAddress a, parseIPAddress b with
    | None, _ => Skip BadStartIP
    | Some _, None => Skip BadEndIP
    | Some x, Some y =>
        if Bool.eqb (is_v4 x) (is_v4 y) then AddRule x y else Skip V4Mismatch
    end in
  (hd [] (split ch_comma (trimmed raw)) = field ->
   dat_line raw <> Skip AccessTooHigh ->
   (dat_line raw = Skip NotTwoIPs <-> occurrences ch_dash field <> 1)
   /\ forall a b : list byte,
       field = a ++ ch_dash :: b ->
       free_of ch_dash a = true -> free_of ch_dash b = true ->
       dat_line raw = outcome a b)
  /\ (List.last (split ch_colon (trimmed raw)) [] = field ->
      2 <= length (split ch_colon (trimmed raw)) ->
      (p2p_line raw = Skip NotTwoIPs <-> occurrences ch_dash field <> 1)
      /\ forall a b : list byte,
          field = a ++ ch_dash :: b ->
          free_of ch_dash a = true -> free_of ch_dash b = true ->
          p2p_line raw = outcome a b).
Proof.
  intros He Hc. cbv zeta. split.
  - intros Hfield Hacc.
    rewrite (dat_line_range raw He Hc Hacc), Hfield.
    apply range_field_dashes.
  - intros Hfield Hlen.
    rewrite (p2p_line_fields raw He Hc). cbv zeta.
    apply Nat.ltb_ge in Hlen. rewrite Hlen, Hfield.
    apply range_field_dashes.
Qed.

Lemma range_field_one_dash_witness :
  dat_line (bytes "10.0.0.1-10.0.0.9 , 100 , lab") = AddRule (V4 167772161) (V4 167772169)
  /\ dat_line (bytes "10.0.0.1-10.0.0.9-10.0.0.20") = Skip NotTwoIPs
  /\ p2p_line (bytes "lab:net:10.0.0.1-10.0.0.9") = AddRule (V4 167772161) (V4 167772169)
  /\ p2p_line (bytes "lab:10.0.0.1") = Skip NotTwoIPs.
Proof.
  split; [|split; [|split]].
  - assert (Hacc : dat_line (bytes "10.0.0.1-10.0.0.9 , 100 , lab")
                   <> Skip AccessTooHigh) by (vm_compute; discriminate).
    destruct (range_field_one_dash (bytes "10.0.0.1-10.0.0.9 , 100 , lab")
                (bytes "10.0.0.1-10.0.0.9 ") eq_refl eq_refl) as [H _].
    destruct (H eq_refl Hacc) as [_ Hab].
    rewrite (Hab (bytes "10.0.0.1") (bytes "10.0.0.9 ") eq_refl eq_refl eq_refl).
    reflexivity.
  - assert (Hacc : dat_line (bytes "10.0.0.1-10.0.0.9-10.0.0.20")
                   <> Skip AccessTooHigh) by (vm_compute; discriminate).
    destruct (range_field_one_dash (bytes "10.0.0.1-10.0.0.9-10.0.0.20")
                (bytes "10.0.0.1-10.0.0.9-10.0.0.20") eq_refl eq_refl) as [H _].
    destruct (H eq_refl Hacc) as [Hdash _].
    apply Hdash. vm_compute. discriminate.
  - assert (Hlen : 2 <= length (split ch_colon (trimmed (bytes "lab:net:10.0.0.1-10.0.0.9"))))
      by (vm_compute; lia).
    destruct (range_field_one_dash (bytes "lab:net:10.0.0.1-10.0.0.9")
                (bytes "10.0.0.1-10.0.0.9") eq_refl eq_refl) as [_ H].
    destruct (H eq_refl Hlen) as [_ Hab].
    rewrite (Hab (bytes "10.0.0.1") (bytes "10.0.0.9") eq_refl eq_refl eq_refl).
    reflexivity.
  - assert (Hlen : 2 <= length (split ch_colon (trimmed (bytes "lab:10.0.0.1"))))
      by (vm_compute; lia).
    destruct (range_field_one_dash (bytes "lab:10.0.0.1")
                (bytes "10.0.0.1") eq_refl eq_refl) as [_ H].
    destruct (H eq_refl Hlen) as [Hdash _].
    apply Hdash. vm_compute. discriminate.
Defined.

(** X9: a DAT line "range , access" or "range , access , anything" is decided
    by its first two fields: it is dropped when the access field converts to
    more than 127, and is otherwise handled as its range field; what follows
    the second comma is never looked at. *)
Theorem dat_line_format (raw field access tail : list byte) :
  trimmed raw = field ++ ch_comma :: access ++ tail ->
  free_of ch_comma field = true ->
  free_of ch_comma access = true ->
  tail = [] \/ (exists descr, tail = ch_comma :: descr) ->
  is_comment (trimmed raw) = false ->
  dat_line raw
  = if (127 <? toInt (trimmed access))%Z then Skip AccessTooHigh
    else range_field field.
Proof.
  intros Hline Hf Ha Htail Hc.
  assert (He : isEmpty (trimmed raw) = false)
    by (rewrite Hline; destruct field; reflexivity).
  rewrite (dat_line_fields raw He Hc). cbv zeta.
  rewrite Hline, split_app_sep, (split_free _ field Hf). cbn [app].
  assert (Hrest : exists more, split ch_comma (access ++ tail) = access :: more).
  { destruct Htail as [->|[descr ->]].
    - rewrite app_nil_r, (split_free _ access Ha). eexists. reflexivity.
    - rewrite split_app_sep, (split_free _ access Ha). eexists. reflexivity. }
  destruct Hrest as [more ->]. reflexivity.
Qed.

Lemma dat_line_format_witness :
  dat_line (bytes "10.0.0.1-10.0.0.9 , 200 , a, b") = Skip AccessTooHigh
  /\ dat_line (bytes "10.0.0.1-10.0.0.9,0,x-y,z") = AddRule (V4 167772161) (V4 167772169).
Proof.
  split.
  - rewrite (dat_line_format (bytes "10.0.0.1-10.0.0.9 , 200 , a, b")
               (bytes "10.0.0.1-10.0.0.9 ") (bytes " 200 ") (bytes ", a, b")
               eq_refl eq_refl eq_refl (or_intror (ex_intro _ _ eq_refl)) eq_refl).
    reflexivity.
  - rewrite (dat_line_format (bytes "10.0.0.1-10.0.0.9,0,x-y,z")
               (bytes "10.0.0.1-10.0.0.9") (bytes "0") (bytes ",x-y,z")
               eq_refl eq_refl eq_refl (or_intror (ex_intro _ _ eq_refl)) eq_refl).
    reflexivity.
Defined.

Lemma last_app_cons {A : Type} (l : list A) (x : A) (m : list A) (d : A) :
  List.last (l ++ x :: m) d = List.last (x :: m) d.
Proof.
  induction l as [|y l IH]; [reflexivity|].
  change ((y :: l) ++ x :: m) with (y :: (l ++ x :: m)).
  remember (l ++ x :: m) as r eqn:Hr.
  destruct r as [|z r]; [destruct l; discriminate Hr|].
  change (List.last (y :: z :: r) d) with (List.last (z :: r) d). exact IH.
Qed.

(** X10: a P2P line is decided by what follows its last colon: the text
    before it, colons included, is never looked at (unless it makes the line a
    comment). *)
Theorem p2p_line_format (raw name field : list byte) :
  trimmed raw = name ++ ch_colon :: field ->
  free_of ch_colon field = true ->
  is_comment (trimmed raw) = false ->
  p2p_line raw = range_field field.
Proof.
  intros Hline Hf Hc.
  assert (He : isEmpty (trimmed raw) = false)
    by (rewrite Hline; destruct name; reflexivity).
  rewrite (p2p_line_fields raw He Hc). cbv zeta.
  rewrite Hline, split_app_sep, (split_free _ field Hf).
  pose proof (split_not_nil ch_colon name) as Hn.
  destruct (split ch_colon name) as [|p ps] eqn:Hs; [contradiction|].
  assert (Hlen : (length ((p :: ps) ++ [field]) <? 2) = false).
  { apply Nat.ltb_ge. rewrite length_app. cbn [length]. lia. }
  rewrite Hlen, last_app_cons. reflexivity.
Qed.

Lemma p2p_line_format_witness :
  p2p_line (bytes "Some org: branch :10.0.0.1-10.0.0.9")
  = AddRule (V4 167772161) (V4 167772169).
Proof.
  rewrite (p2p_line_format (bytes "Some org: branch :10.0.0.1-10.0.0.9")
             (bytes "Some org: branch ") (bytes "10.0.0.1-10.0.0.9")
             eq_refl eq_refl eq_refl).
  reflexivity.
Defined.

(** ** Whole P2B files *)

Lemma quad_bytes_length (q : quad) : length (quad_bytes q) = 4.
Proof. destruct q as [[[a b] c] d]. reflexivity. Qed.

Lemma quad_load (E : env) (q : quad) :
  ntohl E (load32 E (quad_bytes q)) = quad_value q.
Proof. apply ntohl_load32, quad_bytes_length. Qed.

Lemma read_quad (q : quad) (buf s : list byte) :
  length buf = 4 ->
  readRawData 4 buf (quad_bytes q ++ s) = RawRead 4 (quad_bytes q) s.
Proof.
  intros Hb. destruct q as [[[a b] c] d].
  unfold readRawData. cbn [quad_bytes].
  change (firstn 4 ([a; b; c; d] ++ s)) with [a; b; c; d].
  change (skipn 4 ([a; b; c; d] ++ s)) with s.
  cbn [length]. rewrite (skipn_nil_of_short 4 buf) by lia. reflexivity.
Qed.

Lemma skipn_quads (q1 q2 : quad) (s : list byte) :
  skipn 4 (quad_bytes q1 ++ s) = s
  /\ skipn 8 (quad_bytes q1 ++ quad_bytes q2 ++ s) = s.
Proof. destruct q1 as [[[a b] c] d], q2 as [[[e f] g] h]. split; reflexivity. Qed.

Lemma state_unchanged (st : Z * thread) :
  st = ((fst st + Z.of_nat 0)%Z,
        Thread (m_filter (snd st) ++ []) (logged (snd st)) (polls (snd st) + 0)).
Proof.
  destruct st as [n [f lg k]]. cbn. rewrite app_nil_r, Z.add_0_r, Nat.add_0_r.
  reflexivity.
Qed.

Lemma names_loop_nonempty (E : env) (i namecount : Z) (s : list byte) (st : Z * thread) :
  (i < namecount)%Z -> s <> [] ->
  names_loop E i namecount s st
  = let g := getlineInStream s [] ch_nul in
    if (gl_total g =? 0)%Z then Return (p2b_fatal st (gl_rest g))
    else
      let (flag, th) := read_abort E (snd st) in
      if flag then Return ((fst st, th), gl_rest g)
      else names_loop E (i + 1)%Z namecount (gl_rest g) (fst st, th).
Proof.
  intros Hi Hs. rewrite names_loop_body. apply Z.ltb_lt in Hi. rewrite Hi.
  destruct s; [contradiction|reflexivity].
Qed.

Section Decoding.

Variable E : env.
Hypothesis never : abort_at E = None.

Lemma v12_loop_records (records : list p2b_record) :
  Forall (fun r => no_nul (rec_name r) = true) records ->
  forall (acc start_ end_ : list byte) (st : Z * thread),
    length start_ = 4 -> length end_ = 4 ->
    v12_loop E (encode_v12 records) acc start_ end_ st
    = (((fst st + Z.of_nat (length records))%Z,
        Thread (m_filter (snd st) ++ map record_rule records)
               (logged (snd st)) (polls (snd st) + length records)),
       []).
Proof.
  induction 1 as [|r rs Hr Hrs IH]; intros acc start_ end_ st Hs He.
  - cbn [encode_v12 flat_map]. rewrite v12_loop_equation_1.
    cbn [length map]. rewrite <- state_unchanged. reflexivity.
  - change (encode_v12 (r :: rs)) with (encode_record r ++ encode_v12 rs).
    unfold encode_record.
    rewrite <- app_assoc, <- app_comm_cons, <- app_assoc.
    rewrite (v12_loop_step E never) by
        (try exact Hr; rewrite !length_app, !quad_bytes_length; lia).
    cbv zeta.
    destruct (skipn_quads (rec_start r) (rec_end r) (encode_v12 rs)) as [_ Hk8].
    destruct (skipn_quads (rec_start r) (rec_end r)
                          (quad_bytes (rec_end r) ++ encode_v12 rs)) as [Hk4 _].
    rewrite Hk8, Hk4, !read_quad by assumption. cbn [mem].
    rewrite (IH _ _ _ _ (quad_bytes_length _) (quad_bytes_length _)).
    rewrite !quad_load. unfold polled. rewrite try_add_rule_v4.
    cbn [fst snd m_filter logged polls set_filter length map].
    rewrite <- app_assoc. cbn [app].
    f_equal. f_equal; [lia|]. f_equal. lia.
Qed.

(** X11: a file of version 1 or 2 that holds the header and then complete
    records - a name without NUL, its NUL, four bytes, four bytes - gives one
    IPv4 rule per record, in the order of the file, with the big-endian values
    of the two groups of four bytes as bounds, on a host of either byte order;
    it is read to its end and nothing is logged. *)
Theorem p2b_v12_decodes (version : byte) (records : list p2b_record) (th : thread) :
  code version = 1%Z \/ code version = 2%Z ->
  Forall (fun r => no_nul (rec_name r) = true) records ->
  parseP2BStream E (magic ++ version :: encode_v12 records) th
  = ((Z.of_nat (length records),
      Thread (m_filter th ++ map record_rule records)
             (logged th) (polls th + length records)),
     []).
Proof.
  intros Hv Hn. rewrite (p2b_version_12 E version _ th Hv).
  rewrite (v12_loop_records records Hn) by apply uninit_length.
  reflexivity.
Qed.

Lemma names_loop_all (names : list (list byte)) :
  Forall (fun name => no_nul name = true) names ->
  forall (i : Z) (s : list byte) (st : Z * thread),
    names_loop E i (i + Z.of_nat (length names)) (encode_names names ++ s) st
    = Fallthrough ((fst st,
                    Thread (m_filter (snd st)) (logged (snd st))
                           (polls (snd st) + length names)),
                   s).
Proof.
  induction 1 as [|name names Hname Hnames IH]; intros i s st.
  - cbn [length encode_names flat_map app Z.of_nat]. rewrite names_loop_body.
    replace (i <? i + 0)%Z with false by (symmetry; apply Z.ltb_ge; lia).
    destruct st as [n [f lg k]]. cbn. rewrite Nat.add_0_r. reflexivity.
  - change (encode_names (name :: names)) with ((name ++ [ch_nul]) ++ encode_names names).
    rewrite <- !app_assoc. cbn [app].
    rewrite names_loop_nonempty by
        (cbn [length]; try lia; destruct name; discriminate).
    cbv zeta. unfold getlineInStream.
    rewrite (getline_name name [] _ 0 Hname).
    cbn [gl_total gl_rest gl_name fst snd].
    replace (0 + Z.of_nat (length name) + 1 =? 0)%Z with false
      by (symmetry; apply Z.eqb_neq; lia).
    unfold read_abort. rewrite (flag_at_none E _ never).
    replace (i + Z.of_nat (length (name :: names)))%Z
      with (i + 1 + Z.of_nat (length names))%Z by (cbn [length]; lia).
    rewrite IH. cbn [fst snd m_filter logged polls].
    replace (polls (snd st) + length (name :: names))
      with (S (polls (snd st)) + length names) by (cbn [length]; lia).
    reflexivity.
Qed.

Lemma ranges_loop_all (ranges : list p2b_range) :
  forall (i : Z) (s name start_ end_ : list byte) (st : Z * thread),
    length name = 4 -> length start_ = 4 -> length end_ = 4 ->
    flow_result
      (ranges_loop E i (i + Z.of_nat (length ranges)) (encode_ranges ranges ++ s)
                   name start_ end_ st)
    = (((fst st + Z.of_nat (length ranges))%Z,
        Thread (m_filter (snd st) ++ map range_rule ranges)
               (logged (snd st)) (polls (snd st) + length ranges)),
       s).
Proof.
  induction ranges as [|r rs IH]; intros i s name start_ end_ st Hn Hs He.
  - cbn [length encode_ranges flat_map app Z.of_nat]. rewrite ranges_loop_body.
    replace (i <? i + 0)%Z with false by (symmetry; apply Z.ltb_ge; lia).
    cbn [flow_result length map]. rewrite <- state_unchanged. reflexivity.
  - change (encode_ranges (r :: rs)) with (encode_range r ++ encode_ranges rs).
    unfold encode_range. rewrite <- !app_assoc.
    rewrite (ranges_loop_step E never) by
        (cbn [length]; try lia; rewrite !length_app, !quad_bytes_length; lia).
    cbv zeta.
    destruct (skipn_quads (range_name r) (range_start r)
                          (quad_bytes (range_end r) ++ encode_ranges rs ++ s))
      as [_ Hk8].
    destruct (skipn_quads (range_name r) (range_start r)
                          (quad_bytes (range_start r) ++ quad_bytes (range_end r)
                                      ++ encode_ranges rs ++ s))
      as [Hk4 _].
    destruct (skipn_quads (range_end r) (range_end r) (encode_ranges rs ++ s))
      as [Hk4' _].
    replace (skipn 12 (quad_bytes (range_name r) ++ quad_bytes (range_start r)
                         ++ quad_bytes (range_end r) ++ encode_ranges rs ++ s))
      with (encode_ranges rs ++ s)
      by (change 12 with (4 + 8); rewrite <- skipn_skipn, Hk8, Hk4'; reflexivity).
    rewrite Hk8, Hk4, !read_quad by assumption. cbn [mem].
    rewrite !quad_load.
    replace (i + Z.of_nat (length (r :: rs)))%Z
      with (i + 1 + Z.of_nat (length rs))%Z by (cbn [length]; lia).
    rewrite (IH _ _ _ _ _ _ (quad_bytes_length _) (quad_bytes_length _)
                (quad_bytes_length _)).
    destruct st as [n th]. rewrite try_add_rule_v4. unfold polled.
    cbn [fst snd m_filter logged polls set_filter length map].
    rewrite <- app_assoc. cbn [app].
    f_equal. f_equal; [lia|]. f_equal. lia.
Qed.

(** X12: a file of version 3 that holds the header, a name count, that many
    names each closed by a NUL, a range count and that many complete range
    records gives one IPv4 rule per range record, in order, with the
    big-endian values of the second and third group of four bytes as bounds;
    names and name indices play no part, nothing is logged, and whatever
    follows the last counted record is left unread. *)
Theorem p2b_v3_decodes (nc rc : quad) (names : list (list byte))
        (ranges : list p2b_range) (trailing : list byte) (th : thread) :
  quad_value nc = Z.of_nat (length names) ->
  quad_value rc = Z.of_nat (length ranges) ->
  Forall (fun name => no_nul name = true) names ->
  parseP2BStream E (magic ++ x03 :: quad_bytes nc ++ encode_names names
                          ++ quad_bytes rc ++ encode_ranges ranges ++ trailing) th
  = ((Z.of_nat (length ranges),
      Thread (m_filter th ++ map range_rule ranges)
             (logged th) (polls th + length names + length ranges)),
     trailing).
Proof.
  intros Hnc Hrc Hnames. rewrite p2b_version_3. cbv zeta.
  rewrite read_quad by apply uninit_length. cbn [nread mem rest Z.eqb].
  rewrite quad_load, Hnc.
  rewrite (names_loop_all names Hnames 0).
  rewrite read_quad by apply uninit_length. cbn [nread mem rest Z.eqb].
  rewrite quad_load, Hrc.
  pose proof (ranges_loop_all ranges 0 trailing (uninit E 24 4) (uninit E 8 4)
                (uninit E 12 4)
                (0%Z, Thread (m_filter th) (logged th) (polls th + length names))
                (uninit_length _ _ _) (uninit_length _ _ _) (uninit_length _ _ _))
    as Hranges.
  cbn [fst snd m_filter logged polls Z.add] in Hranges.
  destruct (ranges_loop E 0 _ _ _ _ _ _) as [r|r]; cbn [flow_result] in Hranges;
    exact Hranges.
Qed.

End Decoding.

Lemma p2b_v12_decodes_witness :
  parseP2BStream (quiet [])
                 (magic ++ x02 :: encode_v12
                          [P2BRecord (bytes "lan") (x0a, x00, x00, x01) (x0a, x00, x00, x09);
                           P2BRecord [] (x01, x02, x03, x04) (x01, x02, x03, x09)])
                 fresh
  = ((2%Z, Thread [Rule (V4 167772161) (V4 167772169);
                   Rule (V4 16909060) (V4 16909065)] [] 2), []).
Proof.
  rewrite (p2b_v12_decodes (quiet []) eq_refl x02
             [P2BRecord (bytes "lan") (x0a, x00, x00, x01) (x0a, x00, x00, x09);
              P2BRecord [] (x01, x02, x03, x04) (x01, x02, x03, x09)]
             fresh (or_intror eq_refl)).
  - reflexivity.
  - repeat constructor.
Defined.

Lemma p2b_v3_decodes_witness :
  parseP2BStream (quiet [])
                 (magic ++ x03 :: quad_bytes (x00, x00, x00, x01)
                        ++ encode_names [bytes "lan"]
                        ++ quad_bytes (x00, x00, x00, x01)
                        ++ encode_ranges
                             [P2BRange (x00, x00, x00, x00) (x0a, x00, x00, x01)
                                       (x0a, x00, x00, x09)]
                        ++ bytes "rest")
                 fresh
  = ((1%Z, Thread [Rule (V4 167772161) (V4 167772169)] [] 2), bytes "rest").
Proof.
  rewrite (p2b_v3_decodes (quiet []) eq_refl (x00, x00, x00, x01) (x00, x00, x00, x01)
             [bytes "lan"]
             [P2BRange (x00, x00, x00, x00) (x0a, x00, x00, x01) (x0a, x00, x00, x09)]
             (bytes "rest") fresh eq_refl eq_refl).
  - reflexivity.
  - repeat constructor.
Defined.

(** ** What the P2B parser can add and log *)

Lemma be_value_quad (m : list byte) :
  length m = 4 -> (0 <= be_value (map code m) < 2 ^ 32)%Z.
Proof.
  destruct m as [|a [|b [|c [|d [|e m]]]]]; try discriminate. intros _.
  cbn [map be_value fold_left].
  pose proof (code_range a). pose proof (code_range b).
  pose proof (code_range c). pose proof (code_range d).
  change (2 ^ 32)%Z with 4294967296%Z. lia.
Qed.

Lemma readRawData_keeps_size (len : nat) (buf s : list byte) :
  length buf = len -> length (mem (readRawData len buf s)) = len.
Proof.
  intros H. unfold readRawData. cbn [mem].
  rewrite length_app, length_skipn, length_firstn. lia.
Qed.

Lemma adds_v4_refl (st : Z * thread) : adds_v4 st st.
Proof. exists []. rewrite app_nil_r. auto. Qed.

Lemma adds_v4_trans (a b c : Z * thread) : adds_v4 a b -> adds_v4 b c -> adds_v4 a c.
Proof.
  intros (m1 & H1 & F1) (m2 & H2 & F2). exists (m1 ++ m2).
  rewrite H2, H1, <- app_assoc. split; [reflexivity|].
  apply Forall_app. auto.
Qed.

Lemma adds_v4_same (a b : Z * thread) :
  m_filter (snd b) = m_filter (snd a) -> adds_v4 a b.
Proof. intros H. exists []. rewrite app_nil_r. auto. Qed.

Lemma adds_v4_step (E : env) (m1 m2 : list byte) (st : Z * thread) :
  length m1 = 4 -> length m2 = 4 ->
  adds_v4 st (try_add_rule (address_v4 (ntohl E (load32 E m1)))
                           (address_v4 (ntohl E (load32 E m2))) st)
  /\ logged (snd (try_add_rule (address_v4 (ntohl E (load32 E m1)))
                               (address_v4 (ntohl E (load32 E m2))) st))
     = logged (snd st).
Proof.
  intros H1 H2. destruct st as [n th]. rewrite try_add_rule_v4.
  split; [|reflexivity].
  exists [Rule (V4 (ntohl E (load32 E m1))) (V4 (ntohl E (load32 E m2)))].
  split; [reflexivity|]. constructor; [|constructor].
  rewrite !ntohl_load32 by assumption.
  eexists _, _. split; [reflexivity|].
  split; apply be_value_quad; assumption.
Qed.

Section Kept.

Variable E : env.

Lemma v12_loop_kept (s : list byte) :
  forall (name start_ end_ : list byte) (st : Z * thread),
    length start_ = 4 -> length end_ = 4 ->
    adds_v4 st (fst (v12_loop E s name start_ end_ st))
    /\ logs_at_most ParsingError (snd st) (snd (fst (v12_loop E s name start_ end_ st))).
Proof.
  remember (length s) as n eqn:Hn. revert s Hn.
  induction n as [n IH] using lt_wf_ind. intros [|c s'] Hn name start_ end_ st Hs He.
  - simp v12_loop. split; [apply adds_v4_refl|left; reflexivity].
  - rewrite v12_loop_equation_2. cbv zeta.
    destruct (gl_total _ =? 0)%Z.
    { split; [apply adds_v4_refl|left; reflexivity]. }
    unfold read_abort. destruct (flag_at E (polls (snd st))).
    { split; [apply adds_v4_same; reflexivity|left; reflexivity]. }
    destruct (nread (readRawData 4 start_ _) =? 0)%Z.
    { split; [apply adds_v4_same; reflexivity|right; reflexivity]. }
    destruct (nread (readRawData 4 end_ _) =? 0)%Z.
    { split; [apply adds_v4_same; reflexivity|right; reflexivity]. }
    pose proof (v12_next_shorter c s' name start_ end_) as Hlt.
    match goal with
    | |- context [v12_loop E ?s1 ?n1 ?a1 ?b1 (try_add_rule _ _ ?st0)] =>
        pose proof (readRawData_keeps_size 4 start_
                      (gl_rest (getlineInStream (c :: s') name ch_nul)) Hs) as Ha1;
        assert (Hb1 : length b1 = 4) by (apply readRawData_keeps_size; exact He);
        destruct (adds_v4_step E a1 b1 st0 Ha1 Hb1) as [Hadd Hlog];
        destruct (IH (length s1) ltac:(lia) s1 eq_refl n1 a1 b1
                     (try_add_rule (address_v4 (ntohl E (load32 E a1)))
                                   (address_v4 (ntohl E (load32 E b1))) st0)
                     Ha1 Hb1) as [Hg Hl]
    end.
    split.
    + eapply adds_v4_trans; [|exact Hg].
      eapply adds_v4_trans; [|exact Hadd]. apply adds_v4_same. reflexivity.
    + unfold logs_at_most in *. rewrite Hlog in Hl. exact Hl.
Qed.

Lemma names_loop_kept (s : list byte) :
  forall (i namecount : Z) (st : Z * thread),
    match names_loop E i namecount s st with
    | Return r => logs_at_most ParsingError (snd st) (snd (fst r))
    | Fallthrough r => logged (snd (fst r)) = logged (snd st)
    end.
Proof.
  remember (length s) as n eqn:Hn. revert s Hn.
  induction n as [n IH] using lt_wf_ind. intros s Hn i namecount st.
  rewrite names_loop_body. destruct (i <? namecount)%Z; [|reflexivity].
  destruct s as [|c s']; [right; reflexivity|]. cbv zeta.
  destruct (gl_total _ =? 0)%Z; [right; reflexivity|].
  unfold read_abort. destruct (flag_at E (polls (snd st))); [left; reflexivity|].
  pose proof (getline_shrinks c s' [] ch_nul) as Hlt.
  match goal with
  | |- context [names_loop E ?i1 _ ?s1 ?st1] =>
      pose proof (IH (length s1) ltac:(lia) s1 eq_refl i1 namecount st1) as IH1
  end.
  destruct (names_loop E (i + 1) namecount _ _); exact IH1.
Qed.

Lemma ranges_loop_kept (s : list byte) :
  forall (i rangecount : Z) (name start_ end_ : list byte) (st : Z * thread),
    length start_ = 4 -> length end_ = 4 ->
    let r := flow_result (ranges_loop E i rangecount s name start_ end_ st) in
    adds_v4 st (fst r) /\ logs_at_most ParsingError (snd st) (snd (fst r)).
Proof.
  remember (length s) as n eqn:Hn. revert s Hn.
  induction n as [n IH] using lt_wf_ind.
  intros s Hn i rangecount name start_ end_ st Hs He. cbv zeta.
  rewrite ranges_loop_body.
  destruct (i <? rangecount)%Z.
  2:{ split; [apply adds_v4_refl|left; reflexivity]. }
  destruct s as [|c s'].
  { split; [apply adds_v4_same; reflexivity|right; reflexivity]. }
  cbv zeta.
  destruct (nread (readRawData 4 name _) =? 0)%Z.
  { split; [apply adds_v4_same; reflexivity|right; reflexivity]. }
  destruct (nread (readRawData 4 start_ _) =? 0)%Z.
  { split; [apply adds_v4_same; reflexivity|right; reflexivity]. }
  destruct (nread (readRawData 4 end_ _) =? 0)%Z.
  { split; [apply adds_v4_same; reflexivity|right; reflexivity]. }
  pose proof (ranges_next_shorter c s' name start_ end_) as Hlt.
  match goal with
  | |- context [try_add_rule (address_v4 (ntohl E (load32 E ?a1)))
                             (address_v4 (ntohl E (load32 E ?b1))) st] =>
      assert (Ha1 : length a1 = 4) by (apply readRawData_keeps_size; exact Hs);
      assert (Hb1 : length b1 = 4) by (apply readRawData_keeps_size; exact He);
      destruct (adds_v4_step E a1 b1 st Ha1 Hb1) as [Hadd Hlog];
      set (st' := try_add_rule (address_v4 (ntohl E (load32 E a1)))
                               (address_v4 (ntohl E (load32 E b1))) st) in *
  end.
  unfold read_abort. destruct (flag_at E (polls (snd st'))).
  { cbn [flow_result fst snd]. split.
    - eapply adds_v4_trans; [exact Hadd|]. apply adds_v4_same. reflexivity.
    - left. exact Hlog. }
  match goal with
  | |- context [ranges_loop E ?i1 _ ?s1 ?n1 ?a1 ?b1 ?st1] =>
      pose proof (IH (length s1) ltac:(lia) s1 eq_refl i1 rangecount n1 a1 b1 st1
                     Ha1 Hb1) as IH1
  end.
  cbv zeta in IH1. destruct IH1 as [Hg Hl]. split.
  - eapply adds_v4_trans; [exact Hadd|].
    eapply adds_v4_trans; [|exact Hg]. apply adds_v4_same. reflexivity.
  - destruct Hl as [Hl|Hl]; [left|right]; rewrite Hl; cbn [snd logged];
      rewrite Hlog; reflexivity.
Qed.

Lemma parseP2BStream_kept (content : list byte) (th : thread) :
  let r := fst (parseP2BStream E content th) in
  adds_v4 (0%Z, th) r /\ logs_at_most ParsingError th (snd r).
Proof.
  cbv zeta. unfold parseP2BStream. cbv zeta.
  destruct (_ || _).
  { split; [apply adds_v4_same; reflexivity|right; reflexivity]. }
  destruct (nread _ =? 0)%Z.
  { split; [apply adds_v4_same; reflexivity|right; reflexivity]. }
  destruct (_ || _).
  { apply (v12_loop_kept _ _ _ _ (0%Z, th)); apply uninit_length. }
  destruct (_ =? 3)%Z.
  2:{ split; [apply adds_v4_same; reflexivity|right; reflexivity]. }
  destruct (nread _ =? 0)%Z.
  { split; [apply adds_v4_same; reflexivity|right; reflexivity]. }
  match goal with
  | |- context [names_loop E ?i ?n ?s ?st] =>
      pose proof (names_loop_run E i n s st) as Hrun;
      pose proof (names_loop_kept s i n st) as Hkept;
      destruct (names_loop E i n s st) as [r|[st1 s1]]
  end; cbv zeta in Hrun; simpl in Hrun, Hkept; destruct Hrun as (_ & Hf & _).
  { split; [apply adds_v4_same; exact Hf|exact Hkept]. }
  destruct (nread _ =? 0)%Z.
  { split; [apply adds_v4_same; exact Hf|right; simpl; rewrite Hkept; reflexivity]. }
  match goal with
  | |- context [ranges_loop E ?i ?n ?s ?a ?b ?c ?st] =>
      pose proof (ranges_loop_kept s i n a b c st (uninit_length _ _ _)
                    (uninit_length _ _ _)) as Hranges;
      destruct (ranges_loop E i n s a b c st) as [r|r]
  end; cbv zeta in Hranges; cbn [flow_result] in Hranges;
    destruct Hranges as [Hg Hl];
    (split;
     [eapply adds_v4_trans; [apply (adds_v4_same (0%Z, th) st1); exact Hf|exact Hg]
     |destruct Hl as [Hl|Hl]; [left|right]; rewrite Hl; cbn [snd];
      rewrite Hkept; reflexivity]).
Qed.

End Kept.

(** X13: whatever bytes the file holds, whatever the uninitialised locals
    held, on a host of either byte order and under any cancellation, the P2B
    parser keeps the rules that were in the filter and adds IPv4 rules only,
    with bounds between 0 and 2^32 - 1. *)
Theorem p2b_adds_ipv4_rules_only (E : env) (path : list byte) (th : thread) :
  exists more : list rule,
    m_filter (snd (parseP2BFilterFile E path th)) = m_filter th ++ more
    /\ Forall v4_rule more.
Proof.
  unfold parseP2BFilterFile.
  destruct (fs E path) as [| |content].
  - exists []. rewrite app_nil_r. auto.
  - exists []. rewrite app_nil_r. auto.
  - destruct (parseP2BStream_kept E content th) as [H _]. exact H.
Qed.

(** X14: a run logs at most one message: the I/O error only for a file that
    exists and cannot be opened, the parsing error only from the P2B parser;
    lines and records that are skipped are never logged. *)
Theorem run_logs_at_most_one_message (E : env) (path : list byte) (th : thread) :
  exists note : list log_msg,
    logged (after (run E path th)) = logged th ++ note
    /\ (note = []
        \/ (note = [IOError] /\ fs E path = Unreadable /\ dispatch path <> None)
        \/ (note = [ParsingError] /\ dispatch path = Some P2B
            /\ exists content, fs E path = Readable content)).
Proof.
  rewrite run_calls. cbv zeta.
  assert (Hlog : forall b : bool,
             logged (after
                       (if b
                        then RunResult (dispatch path)
                               (fst (call_parser E (dispatch path) path th))
                               (Thread (m_filter (snd (call_parser E (dispatch path) path th)))
                                       (logged (snd (call_parser E (dispatch path) path th)))
                                       (S (polls (snd (call_parser E (dispatch path) path th)))))
                               []
                        else RunResult (dispatch path)
                               (fst (call_parser E (dispatch path) path th))
                               (Thread (m_filter (snd (call_parser E (dispatch path) path th)))
                                       (logged (snd (call_parser E (dispatch path) path th)))
                                       (S (polls (snd (call_parser E (dispatch path) path th)))))
                               (IPFilterParsed (fst (call_parser E (dispatch path) path th))
                                :: (if emit_throws E then [IPFilterError] else []))))
             = logged (snd (call_parser E (dispatch path) path th)))
    by (intros []; reflexivity).
  rewrite Hlog. clear Hlog. unfold call_parser.
  destruct (dispatch path) as [[| |]|].
  - unfold parseP2PFilterFile. destruct (fs E path) as [| |content] eqn:Hfs.
    + exists []. rewrite app_nil_r. auto.
    + exists [IOError]. split; [reflexivity|]. right. left.
      repeat split; discriminate.
    + destruct (line_loop_run E p2p_line content (0%Z, th)) as (_ & _ & H).
      rewrite H. exists []. rewrite app_nil_r. auto.
  - unfold parseP2BFilterFile. destruct (fs E path) as [| |content] eqn:Hfs.
    + exists []. rewrite app_nil_r. auto.
    + exists [IOError]. split; [reflexivity|]. right. left.
      repeat split; discriminate.
    + destruct (parseP2BStream_kept E content th) as [_ [H|H]]; rewrite H.
      * exists []. rewrite app_nil_r. auto.
      * exists [ParsingError]. split; [reflexivity|]. right. right.
        split; [reflexivity|]. split; [reflexivity|]. exists content. reflexivity.
  - unfold parseDATFilterFile. destruct (fs E path) as [| |content] eqn:Hfs.
    + exists []. rewrite app_nil_r. auto.
    + exists [IOError]. split; [reflexivity|]. right. left.
      repeat split; discriminate.
    + destruct (line_loop_run E dat_line content (0%Z, th)) as (_ & _ & H).
      rewrite H. exists []. rewrite app_nil_r. auto.
  - exists []. rewrite app_nil_r. auto.
Qed.

(** ** A run that starts cancelled *)

Lemma flag_at_mono (E : env) (k k' : nat) :
  flag_at E k = true -> k <= k' -> flag_at E k' = true.
Proof.
  unfold flag_at. destruct (abort_at E) as [a|]; [|discriminate].
  intros H Hle. apply Nat.leb_le in H. apply Nat.leb_le. lia.
Qed.

Lemma line_loop_cancelled (E : env) (body : list byte -> line_result)
      (file : list byte) (st : Z * thread) :
  flag_at E (polls (snd st)) = true ->
  fst (line_loop E body file st) = fst st
  /\ m_filter (snd (line_loop E body file st)) = m_filter (snd st).
Proof.
  intros Hflag. destruct file as [|c f]; simp line_loop; [auto|].
  unfold read_abort. rewrite Hflag. auto.
Qed.

Lemma v12_loop_cancelled (E : env) (s name start_ end_ : list byte) (st : Z * thread) :
  flag_at E (polls (snd st)) = true ->
  let r := fst (v12_loop E s name start_ end_ st) in
  fst r = fst st /\ m_filter (snd r) = m_filter (snd st)
  /\ logged (snd r) = logged (snd st).
Proof.
  intros Hflag. cbv zeta. destruct s as [|c s'].
  - simp v12_loop. auto.
  - rewrite v12_loop_equation_2. cbv zeta.
    destruct (gl_total (getlineInStream (c :: s') name ch_nul) =? 0)%Z; [auto|].
    unfold read_abort. rewrite Hflag. auto.
Qed.

Lemma ranges_loop_cancelled (E : env) (i rangecount : Z) (s name start_ end_ : list byte)
      (st : Z * thread) :
  flag_at E (polls (snd st)) = true ->
  exists more : list rule,
    m_filter (snd (fst (flow_result
                          (ranges_loop E i rangecount s name start_ end_ st))))
    = m_filter (snd st) ++ more
    /\ length more <= 1.
Proof.
  intros Hflag. rewrite ranges_loop_body.
  assert (Hnone : forall s1 : list byte,
             exists more : list rule,
               m_filter (snd (fst (p2b_fatal st s1))) = m_filter (snd st) ++ more
               /\ length more <= 1).
  { intros s1. exists []. rewrite app_nil_r. cbn. auto. }
  destruct (i <? rangecount)%Z.
  2:{ exists []. rewrite app_nil_r. cbn. auto. }
  destruct s as [|c s']; [apply Hnone|]. cbv zeta.
  destruct (nread (readRawData 4 name (c :: s')) =? 0)%Z; [apply Hnone|].
  destruct (nread (readRawData 4 start_ _) =? 0)%Z; [apply Hnone|].
  destruct (nread (readRawData 4 end_ _) =? 0)%Z; [apply Hnone|].
  destruct st as [n th]. rewrite try_add_rule_v4.
  unfold read_abort. cbn [fst snd polls set_filter m_filter logged] in *. rewrite Hflag.
  eexists [_]. cbn. split; [reflexivity|lia].
Qed.

(** X15: when the cancellation is already requested as a parser starts, the
    DAT parser, the P2P parser and the P2B parser on a file of version 1 or 2
    add no rule and return 0; on a file of version 3 the P2B parser tests the
    flag only after it has added a rule, so it can still add one rule, and no
    more than one. *)
Theorem started_cancelled (E : env) (th : thread) :
  flag_at E (polls th) = true ->
  (forall (path : list byte) (fmt : option format),
      fmt <> Some P2B ->
      fst (call_parser E fmt path th) = 0%Z
      /\ m_filter (snd (call_parser E fmt path th)) = m_filter th)
  /\ (forall (version : byte) (tail : list byte),
         code version = 1%Z \/ code version = 2%Z ->
         fst (fst (parseP2BStream E (magic ++ version :: tail) th)) = 0%Z
         /\ m_filter (snd (fst (parseP2BStream E (magic ++ version :: tail) th)))
            = m_filter th)
  /\ (forall content : list byte,
         exists more : list rule,
           m_filter (snd (fst (parseP2BStream E content th))) = m_filter th ++ more
           /\ length more <= 1).
Proof.
  intros Hflag. split; [|split].
  - intros path fmt Hfmt. unfold call_parser.
    destruct fmt as [[| |]|]; [| contradiction | |auto];
      unfold parseP2PFilterFile, parseDATFilterFile;
      (destruct (fs E path) as [| |content]; [auto|auto|]);
      apply (line_loop_cancelled E _ content (0%Z, th) Hflag).
  - intros version tail Hv. rewrite (p2b_version_12 E version tail th Hv).
    destruct (v12_loop_cancelled E tail [] (uninit E 8 4) (uninit E 12 4) (0%Z, th) Hflag)
      as (H1 & H2 & _).
    auto.
  - intros content.
    assert (Hsame : forall r : p2b_result,
               m_filter (snd (fst r)) = m_filter th ->
               exists more : list rule,
                 m_filter (snd (fst r)) = m_filter th ++ more /\ length more <= 1).
    { intros r Hr. exists []. rewrite app_nil_r. split; [exact Hr|cbn; lia]. }
    unfold parseP2BStream. cbv zeta.
    destruct (_ || _); [apply Hsame; reflexivity|].
    destruct (nread _ =? 0)%Z; [apply Hsame; reflexivity|].
    destruct (_ || _).
    { apply Hsame.
      apply (v12_loop_cancelled E _ [] (uninit E 8 4) (uninit E 12 4) (0%Z, th) Hflag). }
    destruct (_ =? 3)%Z; [|apply Hsame; reflexivity].
    destruct (nread _ =? 0)%Z; [apply Hsame; reflexivity|].
    match goal with
    | |- context [names_loop E ?i ?n ?s ?st] =>
        pose proof (names_loop_run E i n s st) as Hrun;
        destruct (names_loop E i n s st) as [r|[st1 s1]]
    end; cbv zeta in Hrun; simpl in Hrun; destruct Hrun as (_ & Hf & Hp).
    { apply Hsame. exact Hf. }
    destruct (nread _ =? 0)%Z; [apply Hsame; exact Hf|].
    assert (Hflag1 : flag_at E (polls (snd st1)) = true)
      by (apply (flag_at_mono E (polls th)); [exact Hflag|apply Hp]).
    match goal with
    | |- context [ranges_loop E ?i ?n ?s ?a ?b ?c ?st] =>
        destruct (ranges_loop_cancelled E i n s a b c st Hflag1) as (more & Hm & Hlen);
        exists more; rewrite <- Hf; split; [|exact Hlen];
        destruct (ranges_loop E i n s a b c st); exact Hm
    end.
Qed.

Lemma started_cancelled_witness :
  let E := Env (fun _ => Readable three_rules) (Some 0) false true (fun _ => x00) in
  parseDATFilterFile E (bytes "f.dat") fresh = (0%Z, Thread [] [] 1)
  /\ m_filter (snd (fst (parseP2BStream E p2b_one_record fresh))) = []
  /\ fst (parseP2BStream E
            (magic ++ [x03; x00; x00; x00; x00; x00; x00; x00; x02;
                       x00; x00; x00; x00; x01; x02; x03; x04; x01; x02; x03; x09;
                       x00; x00; x00; x00; x0a; x00; x00; x01; x0a; x00; x00; x09])
            fresh)
     = (1%Z, Thread [Rule (V4 16909060) (V4 16909065)] [] 1).
Proof.
  intros E.
  destruct (started_cancelled E fresh eq_refl) as (Htext & Hv12 & _).
  split; [reflexivity|]. split; [|reflexivity].
  apply (Hv12 x01 (bytes "A" ++ [x00; x01; x02; x03; x04; x01; x02; x03; x09])).
  left. reflexivity.
Defined.

(** ** The count that is notified *)

(** X16: after [processFilterFile] the count of the run is the number of rules
    that [IPfilter] returns, whatever the file and whenever the run is
    cancelled; what is emitted is nothing, or [IPFilterParsed] with that
    count, or [IPFilterParsed] with that count followed by [IPFilterError];
    [IPFilterError] is never emitted alone. *)
Theorem notified_count_is_filter_size (E : env) (path : list byte) (th : thread) :
  let r := processFilterFile E path th in
  count r = Z.of_nat (length (IPfilter (after r)))
  /\ (signals r = []
      \/ signals r = [IPFilterParsed (count r)]
      \/ (signals r = [IPFilterParsed (count r); IPFilterError]
          /\ emit_throws E = true)).
Proof.
  cbv zeta. unfold processFilterFile, IPfilter. rewrite run_calls. cbv zeta.
  destruct (call_parser_run E (dispatch path) path (set_filter [] th))
    as ((more & Hf & Hc) & _).
  cbn [fst snd set_filter m_filter app] in Hf, Hc.
  destruct (flag_at E _); cbn [count after signals m_filter].
  - rewrite Hf, Hc. split; [lia|auto].
  - rewrite Hf, Hc. split; [lia|].
    destruct (emit_throws E); auto.
Qed.

(** ** The choice of the parser *)

Lemma startsWith_app (p r : list byte) : startsWith p (p ++ r) = true.
Proof.
  induction p as [|c p IH]; [reflexivity|].
  cbn [app startsWith]. rewrite IH.
  assert (Hc : Byte.eqb c c = true) by (apply Byte.byte_dec_lb; reflexivity).
  rewrite Hc. reflexivity.
Qed.

Lemma startsWith_inv (p l : list byte) :
  startsWith p l = true -> exists r : list byte, l = p ++ r.
Proof.
  revert l. induction p as [|c p IH]; intros l H.
  - exists l. reflexivity.
  - destruct l as [|b l]; [discriminate|]. cbn [startsWith] in H.
    apply andb_true_iff in H as [Hc Hp]. apply Byte.byte_dec_bl in Hc.
    destruct (IH l Hp) as [r ->]. exists r. rewrite Hc. reflexivity.
Qed.

Lemma endsWith_ci_app (suf pre e : list byte) :
  endsWith_ci suf (pre ++ e)
  = startsWith (rev (map toLower suf))
               (rev (map toLower e) ++ rev (map toLower pre)).
Proof. unfold endsWith_ci. rewrite map_app, rev_app_distr. reflexivity. Qed.

Lemma endsWith_ci_extension (suf path : list byte) :
  endsWith_ci suf path = true <-> has_extension (map toLower suf) path.
Proof.
  split.
  - intros H. apply startsWith_inv in H as [r Hr].
    apply (f_equal (@rev byte)) in Hr.
    rewrite rev_involutive, rev_app_distr, rev_involutive in Hr.
    assert (Hlen : length path = length r + length suf).
    { apply (f_equal (@length byte)) in Hr.
      rewrite length_map, length_app, length_rev, length_map in Hr. exact Hr. }
    exists (firstn (length r) path), (skipn (length r) path).
    split; [symmetry; apply firstn_skipn|].
    rewrite <- skipn_map, Hr, skipn_app, length_rev, Nat.sub_diag.
    rewrite skipn_all2 by (rewrite length_rev; lia). reflexivity.
  - intros (pre & e & -> & He). rewrite endsWith_ci_app, He.
    apply startsWith_app.
Qed.

(** X17: [run] chooses the parser by the extension of the path alone, its
    letters in either case: the P2P parser for [.p2p], the P2B parser for
    [.p2b], the DAT parser for [.dat], and no parser exactly when the path has
    none of the three. *)
Theorem dispatch_by_extension (path : list byte) :
  (dispatch path = Some P2P <-> has_extension (bytes ".p2p") path)
  /\ (dispatch path = Some P2B <-> has_extension (bytes ".p2b") path)
  /\ (dispatch path = Some DAT <-> has_extension (bytes ".dat") path)
  /\ (dispatch path = None
      <-> ~ has_extension (bytes ".p2p") path
          /\ ~ has_extension (bytes ".p2b") path
          /\ ~ has_extension (bytes ".dat") path).
Proof.
  pose proof (endsWith_ci_extension (bytes ".p2p") path) as Hp.
  pose proof (endsWith_ci_extension (bytes ".p2b") path) as Hb.
  pose proof (endsWith_ci_extension (bytes ".dat") path) as Hd.
  change (map toLower (bytes ".p2p")) with (bytes ".p2p") in Hp.
  change (map toLower (bytes ".p2b")) with (bytes ".p2b") in Hb.
  change (map toLower (bytes ".dat")) with (bytes ".dat") in Hd.
  assert (Hpb : endsWith_ci (bytes ".p2p") path = true ->
                endsWith_ci (bytes ".p2b") path = false).
  { intros H. apply Hp in H as (pre & e & -> & He).
    rewrite endsWith_ci_app, He. reflexivity. }
  assert (Hpd : endsWith_ci (bytes ".p2p") path = true ->
                endsWith_ci (bytes ".dat") path = false).
  { intros H. apply Hp in H as (pre & e & -> & He).
    rewrite endsWith_ci_app, He. reflexivity. }
  assert (Hbd : endsWith_ci (bytes ".p2b") path = true ->
                endsWith_ci (bytes ".dat") path = false).
  { intros H. apply Hb in H as (pre & e & -> & He).
    rewrite endsWith_ci_app, He. reflexivity. }
  rewrite <- Hp, <- Hb, <- Hd. unfold dispatch. clear Hp Hb Hd.
  destruct (endsWith_ci (bytes ".p2p") path).
  { rewrite (Hpb eq_refl), (Hpd eq_refl). intuition congruence. }
  destruct (endsWith_ci (bytes ".p2b") path).
  { rewrite (Hbd eq_refl). intuition congruence. }
  destruct (endsWith_ci (bytes ".dat") path); intuition congruence.
Qed.

Lemma dispatch_by_extension_witness :
  has_extension (bytes ".p2p") (bytes "Level1.P2P")
  /\ dispatch (bytes "Level1.P2P") = Some P2P.
Proof.
  assert (H : has_extension (bytes ".p2p") (bytes "Level1.P2P")).
  { exists (bytes "Level1"), (bytes ".P2P"). split; reflexivity. }
  split; [exact H|].
  apply (proj1 (dispatch_by_extension (bytes "Level1.P2P"))). exact H.
Defined.

(** ** Addresses that need no repair *)

Lemma digit_plain (c : byte) :
  isdigit c = true ->
  negb (Byte.eqb c ch_dot) = true /\ negb (isspace c) = true
  /\ negb (Byte.eqb c ch_nul) = true.
Proof. destruct c; intros H; try discriminate H; repeat split; reflexivity. Qed.

Lemma hex_or_colon_plain (c : byte) :
  hex_or_colon c = true ->
  negb (isspace c) = true /\ negb (Byte.eqb c ch_nul) = true.
Proof. destruct c; intros H; try discriminate H; split; reflexivity. Qed.

Lemma dropWhile_none (p : byte -> bool) (l : list byte) :
  forallb (fun c => negb (p c)) l = true -> dropWhile p l = l.
Proof.
  destruct l as [|c l]; [reflexivity|]. cbn [forallb dropWhile].
  intros H. apply andb_true_iff in H as [Hc _]. apply negb_true_iff in Hc.
  rewrite Hc. reflexivity.
Qed.

Lemma trimmed_none (l : list byte) :
  forallb (fun c => negb (isspace c)) l = true -> trimmed l = l.
Proof.
  intros H. unfold trimmed. rewrite (dropWhile_none _ _ H).
  rewrite dropWhile_none; [apply rev_involutive|].
  rewrite forallb_forall in *. intros x Hx. apply H, in_rev. exact Hx.
Qed.

Lemma forallb_weaken (P Q : byte -> bool) (l : list byte) :
  (forall c, P c = true -> Q c = true) -> forallb P l = true -> forallb Q l = true.
Proof.
  intros HPQ H. rewrite forallb_forall in *. intros x Hx. apply HPQ, H, Hx.
Qed.

Lemma join_forallb (P : byte -> bool) (sep : byte) (parts : list (list byte)) :
  P sep = true -> forallb (forallb P) parts = true ->
  forallb P (join [sep] parts) = true.
Proof.
  intros Hsep. induction parts as [|p ps IH]; [reflexivity|].
  cbn [forallb]. intros H. apply andb_true_iff in H as [Hp Hps].
  destruct ps as [|q ps]; [exact Hp|].
  change (join [sep] (p :: q :: ps)) with (p ++ sep :: join [sep] (q :: ps)).
  rewrite forallb_app. cbn [forallb]. rewrite Hp, Hsep, (IH Hps). reflexivity.
Qed.

Lemma split_join (sep : byte) (parts : list (list byte)) :
  parts <> [] -> forallb (free_of sep) parts = true ->
  split sep (join [sep] parts) = parts.
Proof.
  induction parts as [|p ps IH]; [contradiction|]. intros _.
  cbn [forallb]. intros H. apply andb_true_iff in H as [Hp Hps].
  destruct ps as [|q ps]; [apply split_free; exact Hp|].
  change (join [sep] (p :: q :: ps)) with (p ++ sep :: join [sep] (q :: ps)).
  rewrite split_app_sep, (split_free _ _ Hp), (IH ltac:(discriminate) Hps).
  reflexivity.
Qed.

Lemma plain_octet_digits (p : list byte) :
  plain_octet p = true -> forallb isdigit p = true.
Proof. unfold plain_octet. intros H. apply andb_true_iff in H as [H _]. exact H. Qed.

Lemma plain_octet_kept (p : list byte) :
  plain_octet p = true -> negb (isEmpty p) = true /\ strip_octet p = p.
Proof.
  unfold plain_octet. intros H. apply andb_true_iff in H as [_ H].
  destruct p as [|c [|c' p]]; [discriminate| |].
  { split; [reflexivity|]. unfold strip_octet.
    destruct (Byte.eqb c ch_zero); reflexivity. }
  apply negb_true_iff in H. split; [reflexivity|].
  unfold strip_octet. rewrite H. reflexivity.
Qed.

(** The texts [inet_pton4] accepts are four plain fields joined by dots. *)
Lemma pton4_shape (src : list byte) :
  (forall (done : list Z) (n : nat) (r : list Z),
      n < 4 -> pton4_loop src done 0%Z false n = Some r -> dotted (4 - n) src)
  /\ (forall (done : list Z) (cur : Z) (n : nat) (r : list Z),
         n <= 4 -> pton4_loop src done cur true n = Some r ->
         exists d rest' : list byte,
           src = d ++ rest' /\ forallb isdigit d = true
           /\ (cur = 0%Z -> d = [])
           /\ ((rest' = [] /\ n = 4)
               \/ (exists tl : list byte,
                      rest' = ch_dot :: tl /\ dotted (4 - n) tl /\ n < 4))).
Proof.
  induction src as [|ch src [IHA IHB]]; split.
  - intros done n r Hn H. cbn [pton4_loop] in H.
    destruct (Nat.ltb_spec n 4); [discriminate|lia].
  - intros done cur n r Hn H. cbn [pton4_loop] in H.
    destruct (Nat.ltb_spec n 4); [discriminate|].
    exists [], []. repeat split; auto. left. split; [reflexivity|lia].
  - intros done n r Hn H. cbn [pton4_loop andb] in H.
    destruct (isdigit ch) eqn:Hd.
    2:{ rewrite andb_false_r in H. discriminate. }
    destruct (255 <? 0 * 10 + digit_val ch)%Z; [discriminate|].
    destruct (Nat.ltb_spec 4 (S n)) as [|Hle]; [discriminate|].
    destruct (IHB _ _ _ _ Hle H) as (d & rest' & -> & Hdig & Hzero & Hrest).
    assert (Hplain : plain_octet (ch :: d) = true).
    { unfold plain_octet. cbn [forallb]. rewrite Hd, Hdig. cbn [andb].
      destruct d as [|c' d]; [reflexivity|].
      destruct (Byte.eqb ch ch_zero) eqn:Hz; [|reflexivity].
      apply Byte.byte_dec_bl in Hz. subst ch.
      discriminate (Hzero eq_refl). }
    destruct Hrest as [[-> H4]|(tl & -> & (parts & Hlen & Hparts & ->) & Hlt)].
    + exists [ch :: d]. split; [cbn [length]; lia|]. split.
      * cbn [forallb]. rewrite Hplain. reflexivity.
      * cbn [join]. rewrite app_nil_r. reflexivity.
    + exists ((ch :: d) :: parts). split; [cbn [length]; lia|]. split.
      * cbn [forallb]. rewrite Hplain, Hparts. reflexivity.
      * destruct parts as [|q ps]; [cbn [length] in Hlen; lia|]. reflexivity.
  - intros done cur n r Hn H. cbn [pton4_loop andb] in H.
    destruct (isdigit ch) eqn:Hd.
    + destruct (cur =? 0)%Z eqn:Hc; [discriminate|].
      destruct (255 <? cur * 10 + digit_val ch)%Z; [discriminate|].
      destruct (IHB _ _ _ _ Hn H) as (d & rest' & -> & Hdig & _ & Hrest).
      exists (ch :: d), rest'. split; [reflexivity|]. split.
      * cbn [forallb]. rewrite Hd, Hdig. reflexivity.
      * split; [|exact Hrest]. intros ->. discriminate.
    + destruct (Byte.eqb ch ch_dot) eqn:Hdot; [|discriminate].
      cbn [andb] in H. apply Byte.byte_dec_bl in Hdot. subst ch.
      destruct (Nat.eqb_spec n 4); [discriminate|].
      exists [], (ch_dot :: src). split; [reflexivity|]. split; [reflexivity|].
      split; [reflexivity|]. right. exists src.
      split; [reflexivity|]. split; [|lia].
      assert (Hlt : n < 4) by lia. apply (IHA _ _ _ Hlt H).
Qed.

Lemma dotted_four_kept (t : list byte) :
  dotted 4 t -> normalizeIP t = t /\ c_str t = t.
Proof.
  intros (parts & Hlen & Hparts & ->).
  assert (Hdigits : forallb (forallb isdigit) parts = true).
  { rewrite forallb_forall in *. intros p Hp.
    apply plain_octet_digits, Hparts, Hp. }
  assert (Hfree : forallb (free_of ch_dot) parts = true).
  { rewrite forallb_forall in *. intros p Hp. unfold free_of.
    apply (forallb_weaken isdigit); [|apply Hdigits, Hp].
    intros c Hc. apply digit_plain, Hc. }
  assert (Hok : forallb (fun c => isdigit c || Byte.eqb c ch_dot)
                        (join [ch_dot] parts) = true).
  { apply join_forallb; [reflexivity|].
    rewrite forallb_forall in *. intros p Hp.
    apply (forallb_weaken isdigit); [|apply Hdigits, Hp].
    intros c Hc. rewrite Hc. reflexivity. }
  assert (Hchar : forall c, isdigit c || Byte.eqb c ch_dot = true ->
                            negb (isspace c) = true
                            /\ negb (Byte.eqb c ch_nul) = true).
  { intros c Hc. apply orb_true_iff in Hc as [Hc|Hc].
    - destruct (digit_plain c Hc) as (_ & H1 & H2). auto.
    - apply Byte.byte_dec_bl in Hc. subst c. split; reflexivity. }
  assert (Htrim : trimmed (join [ch_dot] parts) = join [ch_dot] parts).
  { apply trimmed_none. apply (forallb_weaken _ _ _ (fun c H => proj1 (Hchar c H)) Hok). }
  assert (Hsplit : split_skip_empty ch_dot (join [ch_dot] parts) = parts).
  { unfold split_skip_empty.
    rewrite split_join; [|destruct parts; [discriminate|discriminate]|exact Hfree].
    apply forallb_filter_id. rewrite forallb_forall in *. intros p Hp.
    apply plain_octet_kept, Hparts, Hp. }
  split.
  - rewrite normalizeIP_four by (rewrite Htrim, Hsplit; exact Hlen).
    rewrite Htrim, Hsplit. f_equal.
    rewrite <- (map_id parts) at 2. apply map_ext_in.
    intros p Hp. rewrite forallb_forall in Hparts.
    apply plain_octet_kept, Hparts, Hp.
  - apply c_str_no_nul. unfold no_nul.
    apply (forallb_weaken _ _ _ (fun c H => proj2 (Hchar c H)) Hok).
Qed.

(** X18: a text that [from_string] itself takes as an IPv4 address needs no
    repair: [parseIPAddress] hands it on unchanged and returns the same
    address. *)
Theorem accepted_ipv4_is_kept (t : list byte) (a : Z) :
  from_string t = Some (V4 a) ->
  normalizeIP t = t /\ parseIPAddress t = Some (V4 a).
Proof.
  intros H. assert (Hshape : dotted 4 t).
  { unfold from_string in H.
    destruct (inet_pton6 t); [discriminate|].
    destruct (inet_pton4 t) as [o|] eqn:H4; [|discriminate].
    apply (proj1 (pton4_shape t) [] 0 o (Nat.lt_0_succ 3) H4). }
  destruct (dotted_four_kept t Hshape) as [Hn Hc].
  split; [exact Hn|]. unfold parseIPAddress. rewrite Hn, Hc. exact H.
Qed.

Lemma accepted_ipv4_is_kept_witness :
  from_string (bytes "10.0.200.7") = Some (V4 167823367)
  /\ parseIPAddress (bytes "10.0.200.7") = Some (V4 167823367).
Proof.
  split; [reflexivity|].
  apply (accepted_ipv4_is_kept (bytes "10.0.200.7") 167823367 eq_refl).
Defined.

(** The texts without a dot that [inet_pton6] accepts hold hexadecimal digits
    and colons only. *)
Lemma pton6_loop_chars (src : list byte) :
  forall (tp : list Z) (colonp : option nat) (curtok : list byte)
         (saw_xdigit : bool) (seen : nat) (val : Z) (r : list Z),
    free_of ch_dot src = true ->
    pton6_loop src tp colonp curtok saw_xdigit seen val = Some r ->
    forallb hex_or_colon src = true.
Proof.
  induction src as [|ch src IH]; [reflexivity|].
  intros tp colonp curtok saw seen val r Hfree H.
  unfold free_of in Hfree. cbn [forallb] in Hfree.
  apply andb_true_iff in Hfree as [Hdot Hfree]. apply negb_true_iff in Hdot.
  cbn [pton6_loop] in H. cbn [forallb]. unfold hex_or_colon at 1.
  destruct (xdigit_val ch) as [d|].
  - destruct (seen =? 4); [discriminate|].
    destruct (65535 <? _)%Z; [discriminate|].
    apply (IH _ _ _ _ _ _ _ Hfree H).
  - destruct (Byte.eqb ch ch_colon).
    + cbn [andb]. destruct saw; cbn [negb] in H.
      * destruct (isEmpty src); [discriminate|].
        destruct (16 <? _); [discriminate|].
        apply (IH _ _ _ _ _ _ _ Hfree H).
      * destruct colonp; [discriminate|].
        apply (IH _ _ _ _ _ _ _ Hfree H).
    + rewrite Hdot in H. discriminate.
Qed.

Lemma inet_pton6_chars (t : list byte) (r : list Z) :
  free_of ch_dot t = true -> inet_pton6 t = Some r ->
  forallb hex_or_colon t = true.
Proof.
  intros Hfree H. unfold inet_pton6 in H.
  destruct t as [|c t']; [reflexivity|].
  destruct (Byte.eqb c ch_colon) eqn:Hc.
  - destruct t' as [|c' t'']; [discriminate|].
    destruct (Byte.eqb c' ch_colon); [|discriminate].
    apply Byte.byte_dec_bl in Hc. subst c.
    unfold free_of in Hfree. cbn [forallb] in Hfree.
    apply andb_true_iff in Hfree as [_ Hfree].
    change (forallb hex_or_colon (ch_colon :: c' :: t''))
      with (forallb hex_or_colon (c' :: t'')).
    apply (pton6_loop_chars (c' :: t'') _ _ _ _ _ _ _ Hfree H).
  - apply (pton6_loop_chars _ _ _ _ _ _ _ _ Hfree H).
Qed.

Lemma dotless_kept (t : list byte) :
  free_of ch_dot t = true -> normalizeIP t = trimmed t.
Proof.
  intros Hfree. apply normalizeIP_other.
  assert (Hfree' : free_of ch_dot (trimmed t) = true).
  { unfold free_of, trimmed in *. rewrite forallb_forall in *.
    intros x Hx. apply Hfree.
    apply in_rev in Hx.
    assert (Hsub : forall l y, In y (dropWhile isspace l) -> In y l).
    { induction l as [|c l IHl]; [auto|]. cbn [dropWhile]. intros y Hy.
      destruct (isspace c); [right; apply IHl, Hy|exact Hy]. }
    apply Hsub in Hx. apply in_rev in Hx. apply Hsub in Hx. exact Hx. }
  unfold split_skip_empty. rewrite (split_free _ _ Hfree').
  cbn [filter]. destruct (negb (isEmpty (trimmed t))); cbn [length]; lia.
Qed.

(** X19: a text without a dot that [from_string] accepts is handed on
    unchanged, and [parseIPAddress] returns the same address; so every IPv6
    address written without a dotted part is read as [from_string] reads
    it. *)
Theorem accepted_dotless_is_kept (t : list byte) (a : address) :
  from_string t = Some a -> free_of ch_dot t = true ->
  normalizeIP t = t /\ parseIPAddress t = Some a.
Proof.
  intros H Hfree.
  assert (Hchars : forallb hex_or_colon t = true).
  { unfold from_string in H.
    destruct (inet_pton6 t) as [o|] eqn:H6.
    - apply (inet_pton6_chars t o Hfree H6).
    - destruct (inet_pton4 t) as [o|] eqn:H4; [|discriminate].
      destruct (proj1 (pton4_shape t) [] 0 o (Nat.lt_0_succ 3) H4)
        as (parts & Hlen & _ & ->).
      destruct parts as [|p [|q ps]]; [discriminate|discriminate|].
      change (join [ch_dot] (p :: q :: ps))
        with (p ++ ch_dot :: join [ch_dot] (q :: ps)) in Hfree.
      unfold free_of in Hfree. rewrite forallb_app in Hfree.
      apply andb_true_iff in Hfree as [_ Hfree]. discriminate. }
  assert (Htrim : trimmed t = t).
  { apply trimmed_none.
    apply (forallb_weaken _ _ _ (fun c Hc => proj1 (hex_or_colon_plain c Hc)) Hchars). }
  assert (Hnul : c_str t = t).
  { apply c_str_no_nul. unfold no_nul.
    apply (forallb_weaken _ _ _ (fun c Hc => proj2 (hex_or_colon_plain c Hc)) Hchars). }
  assert (Hn : normalizeIP t = t) by (rewrite (dotless_kept t Hfree); exact Htrim).
  split; [exact Hn|]. unfold parseIPAddress. rewrite Hn, Hnul. exact H.
Qed.

Lemma accepted_dotless_is_kept_witness :
  from_string (bytes "2001:db8::ff00:42:8329")
  = Some (V6 42540766411282592856904265327123268393)
  /\ parseIPAddress (bytes "2001:db8::ff00:42:8329")
     = Some (V6 42540766411282592856904265327123268393).
Proof.
  split; [reflexivity|].
  apply (accepted_dotless_is_kept (bytes "2001:db8::ff00:42:8329") _ eq_refl eq_refl).
Defined.

(** With a dotted part the repair can spoil an address [from_string] accepts:
    the first group is cut as if it were an octet. *)
Example embedded_ipv4_spoiled :
  from_string (bytes "0:0:0:0:0:ffff:1.2.3.4") = Some (V6 281470698652420)
  /\ parseIPAddress (bytes "0:0:0:0:0:ffff:1.2.3.4") = None.
Proof. split; reflexivity. Qed.
